(** * The minibatch feeder of [utils/data_generator.py]

    A shallow embedding of the class [DataGenerator]: the loading of the
    feature store, the resolution of metadata names into row indexes, the
    infinite training generator and the bounded validation generator.

    Conventions of the embedding.
    - Sizes, counts and row positions ([batch_size], [classes_num],
      [max_iteration], [pointer], array indexes) are natural numbers.
    - A Python exception is a value of [exn]; fallible code returns
      [result].
    - A generator function is a state machine: calling it only creates the
      generator object, and every [next] runs the body up to the following
      [yield].
    - [self.random_state] is the one attribute that changes after
      construction; it is threaded explicitly through the training
      generator. *)

From Stdlib Require Import QArith.
From stdpp Require Import base list strings gmap.

Set Default Proof Using "Type*".

(** ** Exceptions and results *)

Inductive exn : Type :=
  | KeyError (key : string)
  | IndexError
  | ValueError
  | Exception (msg : string).

Inductive result (A : Type) : Type :=
  | Ok (a : A)
  | Err (e : exn).
Arguments Ok {A} a.
Arguments Err {A} e.

Definition result_bind {A B} (m : result A) (k : A → result B) : result B :=
  match m with
  | Ok a => k a
  | Err e => Err e
  end.

Notation "'let*' x := m 'in' k" := (result_bind m (fun x => k))
  (at level 10, x pattern, m at level 100, k at level 200).

(** [d[key]] on a dictionary whose entry may be absent. *)
Definition getitem {A} (key : string) (entry : option A) : result A :=
  match entry with
  | Some a => Ok a
  | None => Err (KeyError key)
  end.

(** ** Index arrays

    The arrays of row positions are numpy arrays.  [np.array] of an empty
    Python list has dtype float64, and an array of that dtype cannot be used
    to index another array. *)

Inductive dtype : Type := int64 | float64.

Record ndarray : Type := NdArray { arr_dtype : dtype; arr_data : list nat }.

Definition np_array (l : list nat) : ndarray :=
  NdArray (match l with [] => float64 | _ :: _ => int64 end) l.

(** [len(a)] *)
Definition np_len (a : ndarray) : nat := length (arr_data a).

(** [a[p : q]] for positions [p ≤ q]; the slice stops at the end of [a]. *)
Definition np_slice (a : ndarray) (p q : nat) : ndarray :=
  NdArray (arr_dtype a) (take (q - p) (drop p (arr_data a))).

(** [col[i]] for every [i] of a list of positions. *)
Fixpoint gather {A} (col : list A) (positions : list nat) : result (list A) :=
  match positions with
  | [] => Ok []
  | i :: rest =>
      match col !! i with
      | None => Err IndexError
      | Some x => let* xs := gather col rest in Ok (x :: xs)
      end
  end.

(** [col[idx]] with [idx] an index array. *)
Definition np_take {A} (col : list A) (idx : ndarray) : result (list A) :=
  match arr_dtype idx with
  | float64 => Err IndexError
  | int64 => gather col (arr_data idx)
  end.

(** [np.argwhere(col == x)]: every position that holds [x], ascending. *)
Fixpoint argwhere_from {A} `{EqDecision A} (x : A) (i : nat) (col : list A)
  : list nat :=
  match col with
  | [] => []
  | y :: rest =>
      if decide (y = x) then i :: argwhere_from x (S i) rest
      else argwhere_from x (S i) rest
  end.

Definition argwhere {A} `{EqDecision A} (x : A) (col : list A) : list nat :=
  argwhere_from x 0 col.

(** ** The random state

    [numpy.random.RandomState] is an external library: it is an interface
    here, with the one law the feeder relies on, that [shuffle] rearranges
    the array it is given. *)

Class RandomState (R : Type) : Type := {
  RandomState_seed : Z → R;
  shuffle : R → list nat → list nat * R;
  shuffle_Permutation : ∀ rs l, (shuffle rs l).1 ≡ₚ l
}.

(** [random_state.shuffle(a)] on an index array, in place. *)
Definition np_shuffle `{RandomState R} (rs : R) (a : ndarray) : ndarray * R :=
  let '(l, rs') := shuffle rs (arr_data a) in (NdArray (arr_dtype a) l, rs').

(** ** Arithmetic of the feature values *)

Class FloatOps (F : Type) : Type := {
  fsub : F → F → F;
  fdiv : F → F → F
}.

Section feature_values.
Context {F : Type} `{FloatOps F}.

(** Modelled from the spec: [utilities.scale] is not among the sources.
    Section 4.4: given a batch feature matrix, a mean vector and a std
    vector, all of matching last dimension, it returns [(x - mean) / std]
    element-wise, broadcast over the leading dimension; a shape mismatch is
    the only failure. *)
Definition scale_row (mean std x : list F) : result (list F) :=
  if decide (length x = length mean ∧ length x = length std)
  then Ok (zip_with fdiv (zip_with fsub x mean) std)
  else Err ValueError.

Fixpoint scale_rows (mean std : list F) (x : list (list F))
  : result (list (list F)) :=
  match x with
  | [] => Ok []
  | row :: rest =>
      let* r := scale_row mean std row in
      let* rs := scale_rows mean std rest in
      Ok (r :: rs)
  end.

Definition scale (x : list (list F)) (mean std : list F)
  : result (list (list F)) :=
  scale_rows mean std x.

End feature_values.

(** Modelled from the spec: [utilities.sparse_to_categorical] is not among
    the sources.  Section 4.2: sparse target integers become one-hot vectors
    of width [classes_num], value 1.0 at the class index and 0 elsewhere;
    section 7: an error of the one-hot conversion propagates.  A class index
    outside the width has no position to write to and is such an error.  The
    entries 1.0 and 0.0 are written [1] and [0]. *)
Definition one_hot (classes_num c : nat) : list Z :=
  (λ j, if decide (j = c) then 1%Z else 0%Z) <$> seq 0 classes_num.

Fixpoint sparse_to_categorical (sparse_target : list nat) (classes_num : nat)
  : result (list (list Z)) :=
  match sparse_target with
  | [] => Ok []
  | c :: rest =>
      if decide (c < classes_num)
      then let* rows := sparse_to_categorical rest classes_num in
           Ok (one_hot classes_num c :: rows)
      else Err IndexError
  end.

(** ** The data model *)

Section feeder.
Context {F : Type} `{FloatOps F}.

(** The feature store on disk, an HDF5 file: [audio_name] and [feature] are
    read unconditionally, the other datasets only when present.  Text is
    stored as bytes and decoded on load; the datasets hold the decoded
    text. *)
Record hdf5 : Type := Hdf5 {
  hf_audio_name : option (list string);
  hf_feature : option (list (list F));
  hf_scene_label : option (list string);
  hf_identifier : option (list string);
  hf_source_label : option (list string)
}.

(** [self.data_dict]: the keys ['target'], ['identifier'] and
    ['source_label'] exist only when the store has the matching dataset. *)
Record data_dict : Type := DataDict {
  audio_name : list string;
  feature : list (list F);
  target : option (list nat);
  identifier : option (list string);
  source_label : option (list string)
}.

(** [scalar]: the object holding the mean and std vectors. *)
Record scalar : Type := Scalar { mean : list F; std : list F }.

(** The attributes of a constructed [DataGenerator]. *)
Record DataGenerator : Type := MkDataGenerator {
  dg_scalar : scalar;
  batch_size : nat;
  classes_num : nat;
  lb_to_idx : gmap string nat;
  dg_data_dict : data_dict;
  train_audio_indexes : ndarray;
  validate_audio_indexes : ndarray
}.

(** [batch_data_dict], the dictionary a generator yields. *)
Record batch : Type := Batch {
  batch_audio_name : list string;
  batch_feature : list (list F);
  batch_target : list (list Z)
}.

(** ** Construction *)

(** [[self.lb_to_idx[scene_label] for scene_label in hf['scene_label']]] *)
Fixpoint labels_to_idx (lb : gmap string nat) (labels : list string)
  : result (list nat) :=
  match labels with
  | [] => Ok []
  | scene_label :: rest =>
      let* c := getitem scene_label (lb !! scene_label) in
      let* cs := labels_to_idx lb rest in
      Ok (c :: cs)
  end.

Definition load_hdf5 (lb : gmap string nat) (hf : hdf5) : result data_dict :=
  let* names := getitem "audio_name" (hf_audio_name hf) in
  let* feats := getitem "feature" (hf_feature hf) in
  let* tg :=
    match hf_scene_label hf with
    | Some labels => let* cs := labels_to_idx lb labels in Ok (Some cs)
    | None => Ok None
    end in
  Ok {| audio_name := names; feature := feats; target := tg;
        identifier := hf_identifier hf;
        source_label := hf_source_label hf |}.

(** The loop of [get_audio_indexes] over [meta['audio_name']]: a name found
    in the store appends its first position, a name not found appends
    nothing. *)
Definition audio_indexes_loop (names : list string) (meta : list string)
  : list nat :=
  foldl (λ audio_indexes name,
           match argwhere name names with
           | [] => audio_indexes
           | loct0 :: _ => audio_indexes ++ [loct0]
           end) [] meta.

Definition get_audio_indexes (meta : list string) (dd : data_dict) : ndarray :=
  np_array (audio_indexes_loop (audio_name dd) meta).

Context {R : Type} `{RandomState R}.

(** [__init__].  [train_meta] and [validate_meta] are the [audio_name]
    columns that [read_metadata] returns for the two csv files, and [lb] is
    [config.lb_to_idx]. *)
Definition DataGenerator_init (lb : gmap string nat) (hf : hdf5)
    (train_meta validate_meta : list string) (classes : nat) (sc : scalar)
    (bs : nat) (seed : Z) : result (DataGenerator * R) :=
  let* dd := load_hdf5 lb hf in
  Ok ({| dg_scalar := sc; batch_size := bs; classes_num := classes;
         lb_to_idx := lb; dg_data_dict := dd;
         train_audio_indexes := get_audio_indexes train_meta dd;
         validate_audio_indexes := get_audio_indexes validate_meta dd |},
      RandomState_seed seed).

(** ** Building a batch *)

Definition transform (self : DataGenerator) (x : list (list F))
  : result (list (list F)) :=
  scale x (mean (dg_scalar self)) (std (dg_scalar self)).

(** The body shared by both generators between the slice and the [yield]. *)
Definition make_batch (self : DataGenerator) (batch_audio_indexes : ndarray)
  : result batch :=
  let dd := dg_data_dict self in
  let* names := np_take (audio_name dd) batch_audio_indexes in
  let* feats := np_take (feature dd) batch_audio_indexes in
  let* feats := transform self feats in
  let* tg := getitem "target" (target dd) in
  let* sparse_target := np_take tg batch_audio_indexes in
  let* onehot := sparse_to_categorical sparse_target (classes_num self) in
  Ok {| batch_audio_name := names; batch_feature := feats;
        batch_target := onehot |}.

(** What a request to a generator gives. *)
Inductive outcome : Type :=
  | Yield (b : batch)
  | Raise (e : exn)
  | StopIteration.

(** ** [generate_train] *)

(** The local variables [audio_indexes] and [pointer] at a [yield]. *)
Record train_frame : Type := TrainFrame {
  tf_audio_indexes : ndarray;
  tf_pointer : nat
}.

Inductive train_gen : Type :=
  | TrainCreated
  | TrainSuspended (fr : train_frame)
  | TrainClosed.

(** Calling [generate_train()] creates the generator object. *)
Definition generate_train (self : DataGenerator) : train_gen := TrainCreated.

(** The statements before the loop: the copy of the train indexes is
    shuffled and the pointer starts at 0. *)
Definition train_start (self : DataGenerator) (rs : R) : train_frame * R :=
  let '(audio_indexes, rs) := np_shuffle rs (train_audio_indexes self) in
  ({| tf_audio_indexes := audio_indexes; tf_pointer := 0 |}, rs).

(** One turn of [while True] up to the slice: the reset with its reshuffle,
    the slice and the advance of the pointer. *)
Definition train_iteration (self : DataGenerator) (fr : train_frame) (rs : R)
  : ndarray * train_frame * R :=
  let '(audio_indexes, pointer, rs) :=
    if decide (np_len (tf_audio_indexes fr) ≤ tf_pointer fr)
    then let '(a, rs') := np_shuffle rs (tf_audio_indexes fr) in (a, 0, rs')
    else (tf_audio_indexes fr, tf_pointer fr, rs) in
  let batch_audio_indexes :=
    np_slice audio_indexes pointer (pointer + batch_size self) in
  (batch_audio_indexes,
   {| tf_audio_indexes := audio_indexes;
      tf_pointer := pointer + batch_size self |}, rs).

Definition train_resume (self : DataGenerator) (fr : train_frame) (rs : R)
  : outcome * train_gen * R :=
  let '(batch_audio_indexes, fr', rs') := train_iteration self fr rs in
  match make_batch self batch_audio_indexes with
  | Ok b => (Yield b, TrainSuspended fr', rs')
  | Err e => (Raise e, TrainClosed, rs')
  end.

(** [next(g)] on a training generator. *)
Definition train_next (self : DataGenerator) (g : train_gen) (rs : R)
  : outcome * train_gen * R :=
  match g with
  | TrainCreated =>
      let '(fr, rs') := train_start self rs in train_resume self fr rs'
  | TrainSuspended fr => train_resume self fr rs
  | TrainClosed => (StopIteration, TrainClosed, rs)
  end.

(** The generator and the random state after [n] requests in a row to a
    fresh generator, [rs] being the random state at the first of them. *)
Fixpoint train_after (self : DataGenerator) (rs : R) (n : nat)
  : train_gen * R :=
  match n with
  | 0 => (generate_train self, rs)
  | S n' =>
      let '(g, rs') := train_after self rs n' in
      let '(_, g', rs'') := train_next self g rs' in (g', rs'')
  end.

(** What request number [n] (from 0) gives. *)
Definition train_outcome (self : DataGenerator) (rs : R) (n : nat) : outcome :=
  let '(g, rs') := train_after self rs n in (train_next self g rs').1.1.

(** The loop alone: its frame after [n] turns, and the slice of turn [n]. *)
Fixpoint train_frames (self : DataGenerator) (rs : R) (n : nat)
  : train_frame * R :=
  match n with
  | 0 => train_start self rs
  | S n' =>
      let '(fr, rs') := train_frames self rs n' in
      let '(_, fr', rs'') := train_iteration self fr rs' in (fr', rs'')
  end.

Definition train_slice (self : DataGenerator) (rs : R) (n : nat) : ndarray :=
  let '(fr, rs') := train_frames self rs n in
  (train_iteration self fr rs').1.1.

(** ** [generate_validate] *)

(** The list comprehension of [get_source_indexes]: for every index, in
    order, [data_dict['source_label'][index] in sources]. *)
Fixpoint source_indexes_loop (dd : data_dict) (sources : list string)
    (indexes : list nat) : result (list nat) :=
  match indexes with
  | [] => Ok []
  | index :: rest =>
      let* labels := getitem "source_label" (source_label dd) in
      let* s := match labels !! index with
                | Some s => Ok s
                | None => Err IndexError
                end in
      let* kept := source_indexes_loop dd sources rest in
      Ok (if decide (s ∈ sources) then index :: kept else kept)
  end.

Definition get_source_indexes (indexes : ndarray) (dd : data_dict)
    (sources : list string) : result ndarray :=
  let* source_indexes := source_indexes_loop dd sources (arr_data indexes) in
  Ok (np_array source_indexes).

(** The local variables at a [yield] of the validation generator. *)
Record validate_frame : Type := ValidateFrame {
  vf_audio_indexes : ndarray;
  vf_iteration : nat;
  vf_pointer : nat
}.

Inductive validate_gen : Type :=
  | ValidateCreated (data_type : string) (sources : list string)
      (max_iteration : option nat)
  | ValidateSuspended (max_iteration : option nat) (fr : validate_frame)
  | ValidateClosed.

(** Calling [generate_validate(data_type, sources, max_iteration)] creates
    the generator object and runs none of the body: the call returns and
    cannot raise. *)
Definition generate_validate (self : DataGenerator) (data_type : string)
    (sources : list string) (max_iteration : option nat)
  : result validate_gen :=
  Ok (ValidateCreated data_type sources max_iteration).

(** The statements before the loop: the choice of the index set. *)
Definition validate_start (self : DataGenerator) (data_type : string)
    (sources : list string) : result validate_frame :=
  let* audio_indexes :=
    if decide (data_type = "train") then Ok (train_audio_indexes self)
    else if decide (data_type = "validate") then
      get_source_indexes (validate_audio_indexes self) (dg_data_dict self)
        sources
    else Err (Exception "Incorrect argument!") in
  Ok {| vf_audio_indexes := audio_indexes; vf_iteration := 0;
        vf_pointer := 0 |}.

(** One turn of [while True]: the two [break]s, then the slice and the
    batch. *)
Definition validate_resume (self : DataGenerator)
    (max_iteration : option nat) (fr : validate_frame)
  : outcome * validate_gen :=
  if decide (Some (vf_iteration fr) = max_iteration) then
    (StopIteration, ValidateClosed)
  else if decide (np_len (vf_audio_indexes fr) ≤ vf_pointer fr) then
    (StopIteration, ValidateClosed)
  else
    let batch_audio_indexes :=
      np_slice (vf_audio_indexes fr) (vf_pointer fr)
        (vf_pointer fr + batch_size self) in
    let fr' := {| vf_audio_indexes := vf_audio_indexes fr;
                  vf_iteration := vf_iteration fr + 1;
                  vf_pointer := vf_pointer fr + batch_size self |} in
    match make_batch self batch_audio_indexes with
    | Ok b => (Yield b, ValidateSuspended max_iteration fr')
    | Err e => (Raise e, ValidateClosed)
    end.

(** [next(g)] on a validation generator. *)
Definition validate_next (self : DataGenerator) (g : validate_gen)
  : outcome * validate_gen :=
  match g with
  | ValidateCreated data_type sources max_iteration =>
      match validate_start self data_type sources with
      | Ok fr => validate_resume self max_iteration fr
      | Err e => (Raise e, ValidateClosed)
      end
  | ValidateSuspended max_iteration fr => validate_resume self max_iteration fr
  | ValidateClosed => (StopIteration, ValidateClosed)
  end.

(** The generator after [n] requests. *)
Fixpoint validate_after (self : DataGenerator) (g : validate_gen) (n : nat)
  : validate_gen :=
  match n with
  | 0 => g
  | S n' => (validate_next self (validate_after self g n')).2
  end.

(** What request number [n] (from 0) gives. *)
Definition validate_outcome (self : DataGenerator) (g : validate_gen)
    (n : nat) : outcome :=
  (validate_next self (validate_after self g n)).1.

(** The slice that turn [n] of the validation loop takes from the index set
    [a]. *)
Definition validate_slice (self : DataGenerator) (a : ndarray) (n : nat)
  : ndarray :=
  np_slice a (n * batch_size self) (n * batch_size self + batch_size self).

(** ** Vocabulary of the statements *)

(** The order of the train indexes during epoch [k]: the shuffle before the
    loop gives epoch 0, every later epoch reshuffles the array in place. *)
Fixpoint train_epoch (self : DataGenerator) (rs : R) (k : nat)
  : list nat * R :=
  match k with
  | 0 => shuffle rs (arr_data (train_audio_indexes self))
  | S k' => let '(l, rs') := train_epoch self rs k' in shuffle rs' l
  end.

(** The number of slices of [batch_size] positions that cover [len]
    positions. *)
Definition batches_for (self : DataGenerator) (len : nat) : nat :=
  (len + batch_size self - 1) / batch_size self.

(** The number of batches a validation generator yields from an index set
    of [len] positions. *)
Definition validate_count (self : DataGenerator) (max_iteration : option nat)
    (len : nat) : nat :=
  match max_iteration with
  | Some mx => mx `min` batches_for self len
  | None => batches_for self len
  end.

(** [i] is the first position of [names] that holds [name]. *)
Definition first_position (names : list string) (name : string) (i : nat)
  : Prop :=
  names !! i = Some name ∧ ∀ j, j < i → names !! j ≠ Some name.

(** The feature column has a row for every name, each of the dimension of
    the mean and std vectors. *)
Definition featured (self : DataGenerator) : Prop :=
  let dd := dg_data_dict self in
  length (feature dd) = length (audio_name dd) ∧
  Forall (λ row, length row = length (mean (dg_scalar self)) ∧
                 length row = length (std (dg_scalar self))) (feature dd).

(** The store had a label column: a class index below [classes_num] for
    every name. *)
Definition labelled (self : DataGenerator) : Prop :=
  match target (dg_data_dict self) with
  | Some tg =>
      length tg = length (audio_name (dg_data_dict self)) ∧
      Forall (λ c, c < classes_num self) tg
  | None => False
  end.

(** The store had a source-label column, with a label for every name. *)
Definition source_labelled (self : DataGenerator) : Prop :=
  match source_label (dg_data_dict self) with
  | Some labels => length labels = length (audio_name (dg_data_dict self))
  | None => False
  end.

(** The row at position [i] carries a source label that is in [sources]. *)
Definition from_sources (self : DataGenerator) (sources : list string)
    (i : nat) : Prop :=
  match source_label (dg_data_dict self) with
  | Some labels =>
      match labels !! i with Some s => s ∈ sources | None => False end
  | None => False
  end.

#[export] Instance from_sources_dec self sources i :
  Decision (from_sources self sources i).
Proof.
  unfold from_sources. destruct (source_label _) as [labels|]; [|apply _].
  destruct (labels !! i); apply _.
Defined.

(** [b] is yielded by a request to a training or a validation generator of
    [self], whatever the state of the generator. *)
Definition yielded (self : DataGenerator) (b : batch) : Prop :=
  (∃ g rs, (train_next self g rs).1.1 = Yield b) ∨
  (∃ g, (validate_next self g).1 = Yield b).

(** [self] is what [__init__] returns on some arguments. *)
Definition constructed (self : DataGenerator) : Prop :=
  ∃ lb hf train_meta validate_meta classes sc bs seed (rs0 : R),
    DataGenerator_init lb hf train_meta validate_meta classes sc bs seed
    = Ok (self, rs0).

(** The training generator, with the random state, after [n] requests that
    all yielded. *)
Definition train_gen_at (self : DataGenerator) (rs : R) (n : nat)
  : train_gen * R :=
  match n with
  | 0 => (TrainCreated, rs)
  | S _ => (TrainSuspended (train_frames self rs n).1,
            (train_frames self rs n).2)
  end.

(** The validation frame over the index set [a] after [n] turns. *)
Definition validate_frame_at (self : DataGenerator) (a : ndarray) (n : nat)
  : validate_frame :=
  {| vf_audio_indexes := a; vf_iteration := n;
     vf_pointer := n * batch_size self |}.

(** The index set a validation generator runs over: the train indexes, or
    the validation indexes whose row has a source label in [sources], in
    their order. *)
Definition validate_index_set (self : DataGenerator) (data_type : string)
    (sources : list string) : ndarray :=
  if decide (data_type = "train") then train_audio_indexes self
  else np_array (filter (from_sources self sources)
                   (arr_data (validate_audio_indexes self))).

(** The validation generator over the index set [a] after [n] requests that
    all yielded. *)
Definition validate_gen_at (self : DataGenerator) (g : validate_gen)
    (max_iteration : option nat) (a : ndarray) (n : nat) : validate_gen :=
  match n with
  | 0 => g
  | S _ => ValidateSuspended max_iteration (validate_frame_at self a n)
  end.

(** The index array [a] resolves the metadata names [meta] against the
    names of the store: one first position, in order, for every metadata
    name that occurs among them. *)
Definition resolved (names meta : list string) (a : ndarray) : Prop :=
  length (arr_data a) ≤ length meta ∧
  length (arr_data a) = length (filter (λ name, name ∈ names) meta) ∧
  Forall2 (first_position names) (filter (λ name, name ∈ names) meta)
    (arr_data a).

(** The number of rows of a batch. *)
Definition batch_rows (b : batch) : nat := length (batch_audio_name b).

End feeder.

Arguments hdf5 F : clear implicits.
Arguments data_dict F : clear implicits.
Arguments scalar F : clear implicits.
Arguments DataGenerator F : clear implicits.
Arguments batch F : clear implicits.
Arguments outcome F : clear implicits.

(** ** A small store and two feeders over it *)

Module Example.

Lemma rotate_Permutation (rs : nat) (l : list nat) :
  (rotate (S rs) l, S rs).1 ≡ₚ l.
Proof.
  simpl. unfold rotate. rewrite Permutation_app_comm. by rewrite take_drop.
Qed.

(** A random state that counts its calls and rotates by the count. *)
#[global] Instance rotating : RandomState nat := {|
  RandomState_seed := Z.to_nat;
  shuffle rs l := (rotate (S rs) l, S rs);
  shuffle_Permutation := rotate_Permutation
|}.

(** Exact rational arithmetic for the feature values. *)
#[global] Instance rational : FloatOps Q := {|
  fsub := Qminus;
  fdiv := Qdiv
|}.

Definition lb : gmap string nat := <["x" := 0]> (<["y" := 1]> (<["z" := 2]> ∅)).

Definition store : hdf5 Q := {|
  hf_audio_name := Some ["a"; "b"; "c"; "d"; "e"];
  hf_feature := Some [[1; 2]; [3; 4]; [5; 6]; [7; 8]; [9; 10]]%Q;
  hf_scene_label := Some ["x"; "y"; "x"; "z"; "y"];
  hf_identifier := None;
  hf_source_label := Some ["d1"; "d2"; "d1"; "d1"; "d2"]
|}.

(** The same store without its label column. *)
Definition unlabelled_store : hdf5 Q := {|
  hf_audio_name := hf_audio_name store;
  hf_feature := hf_feature store;
  hf_scene_label := None;
  hf_identifier := None;
  hf_source_label := hf_source_label store
|}.

Definition sc : scalar Q := {| mean := [1; 1]%Q; std := [2; 2]%Q |}.

Definition train_meta : list string := ["a"; "zz"; "c"; "b"; "e"; "d"].
Definition validate_meta : list string := ["c"; "a"; "d"].

Definition feeder : DataGenerator Q := {|
  dg_scalar := sc; batch_size := 2; classes_num := 3; lb_to_idx := lb;
  dg_data_dict := {|
    audio_name := ["a"; "b"; "c"; "d"; "e"];
    feature := [[1; 2]; [3; 4]; [5; 6]; [7; 8]; [9; 10]]%Q;
    target := Some [0; 1; 0; 2; 1];
    identifier := None;
    source_label := Some ["d1"; "d2"; "d1"; "d1"; "d2"] |};
  train_audio_indexes := NdArray int64 [0; 2; 1; 4; 3];
  validate_audio_indexes := NdArray int64 [2; 0; 3]
|}.

Definition unlabelled : DataGenerator Q := {|
  dg_scalar := sc; batch_size := 2; classes_num := 3; lb_to_idx := lb;
  dg_data_dict := {|
    audio_name := ["a"; "b"; "c"; "d"; "e"];
    feature := [[1; 2]; [3; 4]; [5; 6]; [7; 8]; [9; 10]]%Q;
    target := None;
    identifier := None;
    source_label := Some ["d1"; "d2"; "d1"; "d1"; "d2"] |};
  train_audio_indexes := NdArray int64 [0; 2; 1; 4; 3];
  validate_audio_indexes := NdArray int64 [2; 0; 3]
|}.

(** The batch that the first request to a training generator of [feeder]
    yields from random state 0. *)
Definition first_batch : batch Q := {|
  batch_audio_name := ["c"; "b"];
  batch_feature := [[4 # 2; 5 # 2]; [2 # 2; 3 # 2]]%Q;
  batch_target := [[1; 0; 0]; [0; 1; 0]]%Z
|}.

(** The first feeder with batches of one row. *)
Definition single : DataGenerator Q := {|
  dg_scalar := sc; batch_size := 1; classes_num := 3; lb_to_idx := lb;
  dg_data_dict := dg_data_dict feeder;
  train_audio_indexes := train_audio_indexes feeder;
  validate_audio_indexes := validate_audio_indexes feeder
|}.

End Example.

(** ** Further stores and feeders, for the edge cases *)

Module Cases.


(** The store of [Example] without its source-label column. *)
Definition unsourced_store : hdf5 Q := {|
  hf_audio_name := hf_audio_name Example.store;
  hf_feature := hf_feature Example.store;
  hf_scene_label := hf_scene_label Example.store;
  hf_identifier := None;
  hf_source_label := None
|}.

(** The feeder of [Example] when no train metadata name is in the store. *)
Definition untrained : DataGenerator Q := {|
  dg_scalar := Example.sc; batch_size := 2; classes_num := 3;
  lb_to_idx := Example.lb;
  dg_data_dict := dg_data_dict Example.feeder;
  train_audio_indexes := NdArray float64 [];
  validate_audio_indexes := validate_audio_indexes Example.feeder
|}.

(** The feeder over the store without source labels. *)
Definition unsourced : DataGenerator Q := {|
  dg_scalar := Example.sc; batch_size := 2; classes_num := 3;
  lb_to_idx := Example.lb;
  dg_data_dict := {|
    audio_name := ["a"; "b"; "c"; "d"; "e"];
    feature := [[1; 2]; [3; 4]; [5; 6]; [7; 8]; [9; 10]]%Q;
    target := Some [0; 1; 0; 2; 1];
    identifier := None;
    source_label := None |};
  train_audio_indexes := train_audio_indexes Example.feeder;
  validate_audio_indexes := validate_audio_indexes Example.feeder
|}.

End Cases.

(** * Properties *)

(** ** Index resolution *)

Lemma argwhere_from_nil {A} `{EqDecision A} (x : A) i col :
  argwhere_from x i col = [] ↔ x ∉ col.
Proof.
  revert i. induction col as [|y col IH]; intros i; simpl.
  - split; [intros _; apply not_elem_of_nil | done].
  - rewrite not_elem_of_cons. destruct (decide (y = x)) as [->|Hne].
    + split; [done | intros [? _]; done].
    + rewrite IH. split; [intros ?; split; [congruence | done] | by intros [_ ?]].
Qed.

Lemma argwhere_from_head {A} `{EqDecision A} (x : A) i col p rest :
  argwhere_from x i col = p :: rest →
  ∃ d, p = i + d ∧ col !! d = Some x ∧ ∀ j, j < d → col !! j ≠ Some x.
Proof.
  revert i. induction col as [|y col IH]; intros i; simpl; [done|].
  destruct (decide (y = x)) as [->|Hne].
  - intros [= <- _]. exists 0. split_and!; [lia | done | lia].
  - intros Heq. destruct (IH _ Heq) as (d & -> & Hd & Hfirst).
    exists (S d). split_and!; [lia | done |].
    intros [|j] Hj; simpl; [congruence | apply Hfirst; lia].
Qed.

Lemma argwhere_first (names : list string) name p rest :
  argwhere name names = p :: rest → first_position names name p.
Proof.
  intros Heq. destruct (argwhere_from_head _ _ _ _ _ Heq) as (d & -> & ? & ?).
  by split.
Qed.

Lemma foldl_append_acc (names : list string) meta acc :
  foldl (λ audio_indexes name,
           match argwhere name names with
           | [] => audio_indexes
           | loct0 :: _ => audio_indexes ++ [loct0]
           end) acc meta
  = acc ++ audio_indexes_loop names meta.
Proof.
  unfold audio_indexes_loop. revert acc.
  induction meta as [|name meta IH]; intros acc; simpl.
  - by rewrite app_nil_r.
  - rewrite IH. rewrite (IH (match argwhere name names with
                             | [] => [] | loct0 :: _ => [] ++ [loct0] end)).
    destruct (argwhere name names); simpl; [done|]. by rewrite <-app_assoc.
Qed.

Lemma audio_indexes_loop_cons names name meta :
  audio_indexes_loop names (name :: meta)
  = match argwhere name names with
    | [] => audio_indexes_loop names meta
    | loct0 :: _ => loct0 :: audio_indexes_loop names meta
    end.
Proof.
  unfold audio_indexes_loop at 1. simpl. rewrite foldl_append_acc.
  by destruct (argwhere name names).
Qed.

(** The loop keeps, in order, one first position per metadata name that
    occurs in the store. *)
Lemma audio_indexes_loop_spec names meta :
  Forall2 (first_position names)
    (filter (λ name, name ∈ names) meta) (audio_indexes_loop names meta).
Proof.
  induction meta as [|name meta IH]; [constructor|].
  rewrite audio_indexes_loop_cons.
  destruct (argwhere name names) as [|p rest] eqn:Hloct.
  - apply argwhere_from_nil in Hloct. by rewrite filter_cons_False.
  - assert (name ∈ names) as Hin.
    { destruct (decide (name ∈ names)) as [|Hnot]; [done|].
      apply (argwhere_from_nil name 0) in Hnot.
      unfold argwhere in Hloct. congruence. }
    rewrite filter_cons_True by done.
    constructor; [by eapply argwhere_first | done].
Qed.

Lemma audio_indexes_loop_bound names meta :
  Forall (λ i, i < length names) (audio_indexes_loop names meta).
Proof.
  pose proof (audio_indexes_loop_spec names meta) as Hspec.
  induction Hspec as [|name i ? ? [Hi _] _ IH]; constructor; [|done].
  by eapply lookup_lt_Some.
Qed.

Lemma np_array_data l : arr_data (np_array l) = l.
Proof. done. Qed.

Lemma np_array_dtype l : l ≠ [] → arr_dtype (np_array l) = int64.
Proof. by destruct l. Qed.


(** ** Gathering rows and building a batch *)

Lemma gather_Forall2 {A} (col : list A) positions xs :
  gather col positions = Ok xs ↔
  Forall2 (λ i x, col !! i = Some x) positions xs.
Proof.
  revert xs. induction positions as [|i rest IH]; intros xs; simpl.
  - split; [intros [= <-]; constructor | by intros ->%Forall2_nil_inv_l].
  - destruct (col !! i) as [x|] eqn:Hi; simpl.
    + destruct (gather col rest) as [ys|e] eqn:Hrest; simpl.
      * split.
        -- intros [= <-]. constructor; [done | by apply IH].
        -- intros (x' & ys' & Hx & Hys & ->)%Forall2_cons_inv_l.
           apply IH in Hys. congruence.
      * split; [done|].
        intros (x' & ys' & Hx & Hys & ->)%Forall2_cons_inv_l.
        apply IH in Hys. done.
    + split; [done|].
      intros (x' & ys' & Hx & _)%Forall2_cons_inv_l. congruence.
Qed.

Lemma gather_length {A} (col : list A) positions xs :
  gather col positions = Ok xs → length xs = length positions.
Proof. intros Hg%gather_Forall2. symmetry. by eapply Forall2_length. Qed.

Lemma gather_in_range {A} (col : list A) positions :
  Forall (λ i, i < length col) positions →
  ∃ xs, gather col positions = Ok xs.
Proof.
  induction 1 as [|i rest Hi _ [xs IH]]; simpl; [by eexists|].
  destruct (lookup_lt_is_Some_2 col i Hi) as [x ->]. rewrite IH. by eexists.
Qed.

Lemma gather_from {A} (col : list A) positions xs x :
  gather col positions = Ok xs → x ∈ xs → x ∈ col.
Proof.
  intros Hg%gather_Forall2 Hx.
  apply list_elem_of_lookup in Hx as [k Hk].
  destruct (Forall2_lookup_r _ _ _ _ _ Hg Hk) as (i & _ & Hi).
  by eapply list_elem_of_lookup_2.
Qed.

Lemma np_take_Ok {A} (col : list A) idx xs :
  np_take col idx = Ok xs ↔
  arr_dtype idx = int64 ∧ gather col (arr_data idx) = Ok xs.
Proof.
  unfold np_take. destruct (arr_dtype idx); split;
    [by intros ? | by intros [_ ?] | done | by intros [? _]].
Qed.

Lemma sparse_to_categorical_Ok sparse classes rows :
  sparse_to_categorical sparse classes = Ok rows ↔
  Forall (λ c, c < classes) sparse ∧ rows = one_hot classes <$> sparse.
Proof.
  revert rows. induction sparse as [|c rest IH]; intros rows; simpl.
  - split; [intros [= <-]; by split | by intros [_ ->]].
  - destruct (decide (c < classes)) as [Hc|Hc].
    + destruct (sparse_to_categorical rest classes) as [rows'|e]; simpl.
      * destruct (IH rows') as [[Hrest ->] _]; [done|]. split.
        -- intros [= <-]. split; [by constructor | done].
        -- by intros [_ ->].
      * split; [done|]. intros [[_ Hrest]%Forall_cons ->].
        destruct (IH (one_hot classes <$> rest)) as [_ Habs].
        by specialize (Habs (conj Hrest eq_refl)).
    + split; [done|]. by intros [[? _]%Forall_cons _].
Qed.

Lemma one_hot_length classes c : length (one_hot classes c) = classes.
Proof. unfold one_hot. by rewrite length_fmap, length_seq. Qed.

Lemma one_hot_lookup classes c j :
  j < classes →
  one_hot classes c !! j = Some (if decide (j = c) then 1%Z else 0%Z).
Proof.
  intros Hj. unfold one_hot. rewrite list_lookup_fmap.
  by rewrite lookup_seq_lt.
Qed.

Section batches.
Context {F : Type} `{FloatOps F}.
Implicit Types (self : DataGenerator F) (b : batch F).

Lemma scale_rows_Ok (mean std : list F) x :
  Forall (λ row, length row = length mean ∧ length row = length std) x →
  ∃ y, scale_rows mean std x = Ok y ∧ length y = length x.
Proof.
  induction 1 as [|row rest Hrow _ (y & IH & Hlen)]; simpl; [by eexists|].
  unfold scale_row. rewrite decide_True by done. simpl. rewrite IH. simpl.
  eexists. split; [done|]. simpl. by rewrite Hlen.
Qed.

Lemma scale_rows_length (mean std : list F) x y :
  scale_rows mean std x = Ok y → length y = length x.
Proof.
  revert y. induction x as [|row rest IH]; intros y; simpl.
  - by intros [= <-].
  - destruct (scale_row mean std row); simpl; [|done].
    destruct (scale_rows mean std rest) as [y'|]; simpl; [|done].
    intros [= <-]. simpl. by rewrite (IH y').
Qed.

(** What a successfully built batch consists of. *)
Lemma make_batch_Ok self idx b :
  make_batch self idx = Ok b →
  arr_dtype idx = int64 ∧
  gather (audio_name (dg_data_dict self)) (arr_data idx)
    = Ok (batch_audio_name b) ∧
  (∃ feats, gather (feature (dg_data_dict self)) (arr_data idx) = Ok feats ∧
            transform self feats = Ok (batch_feature b)) ∧
  ∃ tg sparse_target,
    target (dg_data_dict self) = Some tg ∧
    gather tg (arr_data idx) = Ok sparse_target ∧
    Forall (λ c, c < classes_num self) sparse_target ∧
    batch_target b = one_hot (classes_num self) <$> sparse_target.
Proof.
  unfold make_batch.
  destruct (np_take (audio_name _) idx) as [names|] eqn:Hn; simpl; [|done].
  destruct (np_take (feature _) idx) as [feats|] eqn:Hf; simpl; [|done].
  destruct (transform self feats) as [feats'|] eqn:Ht; simpl; [|done].
  destruct (target _) as [tg|]; simpl; [|done].
  destruct (np_take tg idx) as [sparse|] eqn:Hs; simpl; [|done].
  destruct (sparse_to_categorical sparse _) as [onehot|] eqn:Ho; simpl;
    [|done].
  intros [= <-]. simpl.
  apply np_take_Ok in Hn as [Hd Hn]. apply np_take_Ok in Hf as [_ Hf].
  apply np_take_Ok in Hs as [_ Hs].
  apply sparse_to_categorical_Ok in Ho as [Hc ->].
  split_and!; [done | done | by exists feats | by exists tg, sparse].
Qed.

Lemma make_batch_rows self idx b :
  make_batch self idx = Ok b →
  batch_rows b = length (arr_data idx) ∧
  length (batch_feature b) = length (arr_data idx) ∧
  length (batch_target b) = length (arr_data idx).
Proof.
  intros (_ & Hn & (feats & Hf & Ht) & tg & sparse & _ & Hs & _ & Ho)
    %make_batch_Ok.
  unfold batch_rows. rewrite Ho, length_fmap.
  rewrite (gather_length _ _ _ Hn), (gather_length _ _ _ Hs).
  unfold transform, scale in Ht.
  by rewrite (scale_rows_length _ _ _ _ Ht), (gather_length _ _ _ Hf).
Qed.

(** A batch can be built from in-range positions of a store that has its
    features and labels in shape. *)
Lemma make_batch_succeeds self idx :
  featured self → labelled self →
  arr_dtype idx = int64 →
  Forall (λ i, i < length (audio_name (dg_data_dict self))) (arr_data idx) →
  ∃ b, make_batch self idx = Ok b.
Proof.
  intros [Hflen Hshape] Hlab Hd Hidx. unfold labelled in Hlab.
  destruct (target (dg_data_dict self)) as [tg|] eqn:Htg; [|done].
  destruct Hlab as [Htlen Hclasses].
  destruct (gather_in_range (audio_name (dg_data_dict self)) _ Hidx)
    as [names Hn].
  destruct (gather_in_range (feature (dg_data_dict self)) (arr_data idx))
    as [feats Hf]; [by rewrite Hflen|].
  destruct (gather_in_range tg (arr_data idx)) as [sparse Hs];
    [by rewrite Htlen|].
  destruct (scale_rows_Ok (mean (dg_scalar self)) (std (dg_scalar self)) feats)
    as (feats' & Ht & _).
  { apply Forall_forall. intros row Hrow.
    eapply (proj1 (Forall_forall _ _) Hshape), gather_from; done. }
  assert (Forall (λ c, c < classes_num self) sparse) as Hsp.
  { apply Forall_forall. intros c Hc.
    eapply (proj1 (Forall_forall _ _) Hclasses), gather_from; done. }
  unfold make_batch, np_take, transform, scale. rewrite Hd, Hn, Hf. simpl.
  rewrite Ht, Htg. simpl. rewrite Hs. simpl.
  destruct (sparse_to_categorical sparse (classes_num self)) as [o|e] eqn:Ho.
  - by eexists.
  - pose proof (proj2 (sparse_to_categorical_Ok sparse (classes_num self) _)
                  (conj Hsp eq_refl)). congruence.
Qed.

(** Without the ['target'] key no batch is built; the lookup of the key is
    what fails once the names and the features are gathered and scaled. *)
Lemma make_batch_unlabelled self idx :
  target (dg_data_dict self) = None →
  (∀ b, make_batch self idx ≠ Ok b) ∧
  (featured self → arr_dtype idx = int64 →
   Forall (λ i, i < length (audio_name (dg_data_dict self))) (arr_data idx) →
   make_batch self idx = Err (KeyError "target")).
Proof.
  intros Htg. split.
  - intros b (_ & _ & _ & tg & ? & ? & _)%make_batch_Ok. congruence.
  - intros [Hflen Hshape] Hd Hidx.
    destruct (gather_in_range (audio_name (dg_data_dict self)) _ Hidx)
      as [names Hn].
    destruct (gather_in_range (feature (dg_data_dict self)) (arr_data idx))
      as [feats Hf]; [by rewrite Hflen|].
    destruct (scale_rows_Ok (mean (dg_scalar self)) (std (dg_scalar self))
                feats) as (feats' & Ht & _).
    { apply Forall_forall. intros row Hrow.
      eapply (proj1 (Forall_forall _ _) Hshape), gather_from; done. }
    unfold make_batch, np_take, transform, scale. rewrite Hd, Hn, Hf. simpl.
    by rewrite Ht, Htg.
Qed.

End batches.

(** ** Slices that cover an index set *)

Lemma div_up_bounds (len bs : nat) :
  0 < bs →
  len ≤ (len + bs - 1) / bs * bs ∧
  (0 < len → 0 < (len + bs - 1) / bs ∧ ((len + bs - 1) / bs - 1) * bs < len).
Proof.
  intros Hbs.
  pose proof (Nat.div_mod_eq (len + bs - 1) bs) as Hdm.
  pose proof (Nat.mod_upper_bound (len + bs - 1) bs) as Hr.
  split; [nia|]. intros Hlen.
  assert (0 < (len + bs - 1) / bs) by (apply Nat.div_str_pos; lia).
  split; [done | nia].
Qed.

Lemma div_up_last (len bs : nat) :
  0 < bs → 0 < len →
  len - ((len + bs - 1) / bs - 1) * bs
  = if decide (len mod bs = 0) then bs else len mod bs.
Proof.
  intros Hbs Hlen.
  pose proof (Nat.div_mod_eq len bs) as Hdm.
  pose proof (Nat.mod_upper_bound len bs) as Hr.
  destruct (decide (len mod bs = 0)) as [H0|H0].
  - assert ((len + bs - 1) / bs = len / bs) as ->.
    { symmetry. apply (Nat.div_unique _ _ _ (bs - 1)); lia. }
    assert (0 < len / bs) by nia. nia.
  - assert ((len + bs - 1) / bs = len / bs + 1) as ->.
    { symmetry. apply (Nat.div_unique _ _ _ (len mod bs - 1)); lia. }
    nia.
Qed.

Lemma concat_slices {A} (l : list A) (bs c : nat) :
  concat ((λ j, take bs (drop (j * bs) l)) <$> seq 0 c) = take (c * bs) l.
Proof.
  induction c as [|c IH]; [done|].
  rewrite seq_S, fmap_app, concat_app, IH. simpl. rewrite app_nil_r.
  rewrite take_take_drop. f_equal. lia.
Qed.

Lemma np_slice_data a p bs :
  arr_data (np_slice a p (p + bs)) = take bs (drop p (arr_data a)).
Proof. simpl. by replace (p + bs - p) with bs by lia. Qed.

Lemma np_slice_in_range a p q n :
  Forall (λ i, i < n) (arr_data a) →
  Forall (λ i, i < n) (arr_data (np_slice a p q)).
Proof. intros Ha. simpl. by apply Forall_take, Forall_drop. Qed.

(** ** The training loop *)

Section training.
Context {F : Type} `{FloatOps F} {R : Type} `{RandomState R}.
Implicit Types (self : DataGenerator F) (rs : R) (b : batch F).

Lemma np_shuffle_eq rs a :
  np_shuffle rs a
  = (NdArray (arr_dtype a) (shuffle rs (arr_data a)).1,
     (shuffle rs (arr_data a)).2).
Proof. unfold np_shuffle. by destruct (shuffle rs (arr_data a)). Qed.

Lemma train_epoch_S self rs k :
  train_epoch self rs (S k)
  = shuffle (train_epoch self rs k).2 (train_epoch self rs k).1.
Proof. simpl. by destruct (train_epoch self rs k). Qed.

Lemma train_epoch_Permutation self rs k :
  (train_epoch self rs k).1 ≡ₚ arr_data (train_audio_indexes self).
Proof.
  induction k as [|k IH]; [apply shuffle_Permutation|].
  rewrite train_epoch_S, <-IH. apply shuffle_Permutation.
Qed.

Lemma train_epoch_length self rs k :
  length (train_epoch self rs k).1 = np_len (train_audio_indexes self).
Proof. by rewrite train_epoch_Permutation. Qed.

(** A turn inside an epoch takes the next slice and leaves the array as it
    is. *)
Lemma train_iteration_inside self a p rs :
  p < np_len a →
  train_iteration self (TrainFrame a p) rs
  = (np_slice a p (p + batch_size self),
     TrainFrame a (p + batch_size self), rs).
Proof.
  intros Hp. unfold train_iteration. simpl. by rewrite decide_False by lia.
Qed.

(** A turn that finds the pointer at or past the end reshuffles and starts
    again from position 0. *)
Lemma train_iteration_reset self a p rs :
  np_len a ≤ p →
  train_iteration self (TrainFrame a p) rs
  = (np_slice (np_shuffle rs a).1 0 (0 + batch_size self),
     TrainFrame (np_shuffle rs a).1 (0 + batch_size self),
     (np_shuffle rs a).2).
Proof.
  intros Hp. unfold train_iteration. simpl. rewrite decide_True by done.
  by destruct (np_shuffle rs a).
Qed.

Lemma train_frames_S self rs n :
  train_frames self rs (S n)
  = ((train_iteration self (train_frames self rs n).1
        (train_frames self rs n).2).1.2,
     (train_iteration self (train_frames self rs n).1
        (train_frames self rs n).2).2).
Proof.
  simpl. destruct (train_frames self rs n) as [fr rs']. simpl.
  by destruct (train_iteration self fr rs') as [[? ?] ?].
Qed.

Lemma train_slice_eq self rs n :
  train_slice self rs n
  = (train_iteration self (train_frames self rs n).1
       (train_frames self rs n).2).1.1.
Proof. unfold train_slice. by destruct (train_frames self rs n). Qed.

(** Turn [j] of epoch [k]: the frame it leaves and the slice it takes. *)
Lemma train_frames_epoch self rs k j :
  let len := np_len (train_audio_indexes self) in
  let m := batches_for self len in
  let d := arr_dtype (train_audio_indexes self) in
  0 < len → 0 < batch_size self → j < m →
  train_frames self rs (S (k * m + j))
  = (TrainFrame (NdArray d (train_epoch self rs k).1)
       ((j + 1) * batch_size self), (train_epoch self rs k).2) ∧
  train_slice self rs (k * m + j)
  = NdArray d (take (batch_size self)
                 (drop (j * batch_size self) (train_epoch self rs k).1)).
Proof.
  intros len m d Hlen Hbs.
  destruct (div_up_bounds len (batch_size self) Hbs) as [Hcover Hm].
  destruct (Hm Hlen) as [Hmpos Hlast]. fold (batches_for self len) in *.
  fold m in Hcover, Hmpos, Hlast.
  assert (∀ k j, j < m →
    train_frames self rs (k * m + j)
    = (TrainFrame (NdArray d (train_epoch self rs k).1)
         (j * batch_size self), (train_epoch self rs k).2) →
    train_frames self rs (S (k * m + j))
    = (TrainFrame (NdArray d (train_epoch self rs k).1)
         ((j + 1) * batch_size self), (train_epoch self rs k).2) ∧
    train_slice self rs (k * m + j)
    = NdArray d (take (batch_size self)
                   (drop (j * batch_size self) (train_epoch self rs k).1)))
    as Hinside.
  { intros k' j' Hj' Hpre.
    rewrite train_frames_S, train_slice_eq, Hpre. simpl.
    rewrite train_iteration_inside.
    - simpl. split; [f_equal; f_equal; lia|].
      unfold np_slice. simpl. do 2 f_equal. lia.
    - unfold np_len. simpl. rewrite train_epoch_length. fold len. nia. }
  revert j. induction k as [|k IHk].
  - induction j as [|j IHj]; intros Hj.
    + apply Hinside; [done|]. simpl. unfold train_start.
      rewrite np_shuffle_eq. done.
    + apply Hinside; [done|].
      replace (0 * m + S j) with (S (0 * m + j)) by lia.
      destruct IHj as [-> _]; [lia|]. do 2 f_equal. lia.
  - induction j as [|j IHj]; intros Hj.
    + destruct (IHk (m - 1)) as [Hpre _]; [lia|].
      replace (S (k * m + (m - 1))) with (S k * m + 0) in Hpre by lia.
      rewrite train_frames_S, train_slice_eq, Hpre. simpl.
      rewrite train_iteration_reset.
      * rewrite np_shuffle_eq. simpl.
        rewrite <-train_epoch_S. split; [f_equal; f_equal; lia|].
        unfold np_slice. simpl. do 2 f_equal. lia.
      * unfold np_len. simpl. rewrite train_epoch_length. fold len. nia.
    + apply Hinside; [done|].
      replace (S k * m + S j) with (S (S k * m + j)) by lia.
      destruct IHj as [-> _]; [lia|]. do 2 f_equal. lia.
Qed.

(** What the loop keeps invariant: the dtype of the index array and its
    contents up to order. *)
Lemma train_frames_invariant self rs n :
  arr_dtype (tf_audio_indexes (train_frames self rs n).1)
  = arr_dtype (train_audio_indexes self) ∧
  arr_data (tf_audio_indexes (train_frames self rs n).1)
  ≡ₚ arr_data (train_audio_indexes self).
Proof.
  induction n as [|n [IHd IHp]].
  - simpl. unfold train_start. rewrite np_shuffle_eq. simpl.
    split; [done | apply shuffle_Permutation].
  - rewrite train_frames_S. destruct (train_frames self rs n) as [[a p] rs'].
    simpl in *. destruct (decide (np_len a ≤ p)) as [Hp|Hp].
    + rewrite train_iteration_reset by done. rewrite np_shuffle_eq. simpl.
      split; [done|]. rewrite <-IHp. apply shuffle_Permutation.
    + rewrite train_iteration_inside by lia. done.
Qed.

Lemma train_slice_invariant self rs n bound :
  Forall (λ i, i < bound) (arr_data (train_audio_indexes self)) →
  arr_dtype (train_slice self rs n) = arr_dtype (train_audio_indexes self) ∧
  Forall (λ i, i < bound) (arr_data (train_slice self rs n)).
Proof.
  intros Hb. rewrite train_slice_eq.
  destruct (train_frames_invariant self rs n) as [Hd Hp].
  destruct (train_frames self rs n) as [[a p] rs']. simpl in *.
  assert (Forall (λ i, i < bound) (arr_data a)) as Ha by by rewrite Hp.
  destruct (decide (np_len a ≤ p)) as [Hlt|Hlt].
  - rewrite train_iteration_reset by done. rewrite np_shuffle_eq.
    split; [done|]. apply np_slice_in_range. simpl.
    by rewrite shuffle_Permutation.
  - rewrite train_iteration_inside by lia.
    split; [done | by apply np_slice_in_range].
Qed.

(** A request to the generator that has yielded [n] times runs turn [n] of
    the loop and builds the batch from its slice. *)
Lemma train_next_at self rs n :
  train_next self (train_gen_at self rs n).1 (train_gen_at self rs n).2
  = match make_batch self (train_slice self rs n) with
    | Ok b => (Yield b, (train_gen_at self rs (S n)).1,
               (train_gen_at self rs (S n)).2)
    | Err e => (Raise e, TrainClosed, (train_frames self rs (S n)).2)
    end.
Proof.
  assert (train_resume self (train_frames self rs n).1
            (train_frames self rs n).2
          = match make_batch self (train_slice self rs n) with
            | Ok b => (Yield b, TrainSuspended (train_frames self rs (S n)).1,
                       (train_frames self rs (S n)).2)
            | Err e => (Raise e, TrainClosed, (train_frames self rs (S n)).2)
            end) as Hresume.
  { rewrite train_slice_eq, train_frames_S. unfold train_resume.
    destruct (train_iteration _ _ _) as [[idx fr'] rs'']. simpl.
    by destruct (make_batch self idx). }
  destruct n as [|n].
  - simpl in *. destruct (train_start self rs) as [fr rs']. exact Hresume.
  - exact Hresume.
Qed.

Lemma train_after_S self rs n :
  train_after self rs (S n)
  = ((train_next self (train_after self rs n).1
        (train_after self rs n).2).1.2,
     (train_next self (train_after self rs n).1
        (train_after self rs n).2).2).
Proof.
  simpl. destruct (train_after self rs n) as [g rs']. simpl.
  by destruct (train_next self g rs') as [[? ?] ?].
Qed.

Lemma train_outcome_eq self rs n :
  train_outcome self rs n
  = (train_next self (train_after self rs n).1
       (train_after self rs n).2).1.1.
Proof. unfold train_outcome. by destruct (train_after self rs n). Qed.

(** After [n] requests the generator either has yielded [n] times or is
    closed. *)
Lemma train_after_cases self rs n :
  train_after self rs n = train_gen_at self rs n ∨
  (train_after self rs n).1 = TrainClosed.
Proof.
  induction n as [|n [IH|IH]]; [by left | |].
  - rewrite train_after_S, IH, train_next_at.
    destruct (make_batch self (train_slice self rs n)); [by left | by right].
  - right. rewrite train_after_S. by rewrite IH.
Qed.

(** A yielded batch is the batch of the slice of its turn. *)
Lemma train_outcome_Yield self rs n b :
  train_outcome self rs n = Yield b →
  make_batch self (train_slice self rs n) = Ok b.
Proof.
  rewrite train_outcome_eq.
  destruct (train_after_cases self rs n) as [->|Hclosed].
  - rewrite train_next_at.
    destruct (make_batch self (train_slice self rs n)); simpl; congruence.
  - rewrite Hclosed. done.
Qed.

(** The generator keeps yielding as long as every batch can be built. *)
Lemma train_after_yielding self rs n :
  (∀ i, i < n → ∃ b, make_batch self (train_slice self rs i) = Ok b) →
  train_after self rs n = train_gen_at self rs n.
Proof.
  induction n as [|n IH]; intros Hok; [done|].
  rewrite train_after_S, IH, train_next_at by (intros; apply Hok; lia).
  by destruct (Hok n) as [b ->]; [lia|].
Qed.

Lemma train_outcome_yielding self rs n :
  (∀ i, i ≤ n → ∃ b, make_batch self (train_slice self rs i) = Ok b) →
  ∃ b, train_outcome self rs n = Yield b.
Proof.
  intros Hok. rewrite train_outcome_eq, train_after_yielding, train_next_at
    by (intros; apply Hok; lia).
  destruct (Hok n) as [b ->]; [lia|]. by exists b.
Qed.

Lemma constructed_indexes self :
  constructed self →
  ∃ train_meta validate_meta,
    train_audio_indexes self
    = get_audio_indexes train_meta (dg_data_dict self) ∧
    validate_audio_indexes self
    = get_audio_indexes validate_meta (dg_data_dict self).
Proof.
  intros (lb & hf & tm & vm & classes & sc & bs & seed & rs0 & Hinit).
  unfold DataGenerator_init in Hinit.
  destruct (load_hdf5 lb hf) as [dd|]; simpl in Hinit; [|done].
  injection Hinit as <- _. by exists tm, vm.
Qed.

Lemma get_audio_indexes_bound meta (dd : data_dict F) :
  Forall (λ i, i < length (audio_name dd))
    (arr_data (get_audio_indexes meta dd)).
Proof. apply audio_indexes_loop_bound. Qed.

Lemma get_audio_indexes_dtype meta (dd : data_dict F) :
  arr_data (get_audio_indexes meta dd) ≠ [] →
  arr_dtype (get_audio_indexes meta dd) = int64.
Proof. apply np_array_dtype. Qed.

(** On a constructed feeder a slice of integer dtype comes from a non-empty
    train index set: the array of an empty set has dtype float64. *)
Lemma train_slice_int64 self rs n :
  constructed (R:=R) self →
  arr_dtype (train_slice self rs n) = int64 →
  0 < np_len (train_audio_indexes self).
Proof.
  intros Hc Hd.
  destruct (constructed_indexes self Hc) as (tm & _ & Htrain & _).
  unfold get_audio_indexes in Htrain.
  destruct (audio_indexes_loop (audio_name (dg_data_dict self)) tm)
    as [|i l].
  - destruct (train_slice_invariant self rs n 0) as [Hd' _].
    { rewrite Htrain. constructor. }
    rewrite Hd, Htrain in Hd'. done.
  - rewrite Htrain. unfold np_len. simpl. lia.
Qed.


End training.

(** ** The validation loop *)

Section validation.
Context {F : Type} `{FloatOps F}.
Implicit Types (self : DataGenerator F) (b : batch F) (a : ndarray).

(** The comprehension of [get_source_indexes] is the filter, in order, when
    every index has a source label. *)
Lemma source_indexes_loop_filter self sources labels indexes :
  source_label (dg_data_dict self) = Some labels →
  Forall (λ i, i < length labels) indexes →
  source_indexes_loop (dg_data_dict self) sources indexes
  = Ok (filter (from_sources self sources) indexes).
Proof.
  intros Hlabels. induction 1 as [|i rest Hi _ IH]; simpl; [done|].
  rewrite Hlabels. simpl.
  destruct (lookup_lt_is_Some_2 labels i Hi) as [s Hs]. rewrite Hs. simpl.
  rewrite IH. simpl. rewrite filter_cons.
  assert (from_sources self sources i ↔ s ∈ sources) as Hiff.
  { unfold from_sources. by rewrite Hlabels, Hs. }
  destruct (decide (s ∈ sources)), (decide (from_sources self sources i));
    first [done | exfalso; tauto].
Qed.

Lemma get_source_indexes_filter self sources :
  source_labelled self →
  Forall (λ i, i < length (audio_name (dg_data_dict self)))
    (arr_data (validate_audio_indexes self)) →
  get_source_indexes (validate_audio_indexes self) (dg_data_dict self) sources
  = Ok (validate_index_set self "validate" sources).
Proof.
  unfold source_labelled. intros Hlab Hidx.
  destruct (source_label (dg_data_dict self)) as [labels|] eqn:Hl; [|done].
  unfold get_source_indexes.
  rewrite (source_indexes_loop_filter self sources labels) by
    (by rewrite ?Hlab).
  done.
Qed.

Lemma validate_start_validate self sources :
  source_labelled self →
  Forall (λ i, i < length (audio_name (dg_data_dict self)))
    (arr_data (validate_audio_indexes self)) →
  validate_start self "validate" sources
  = Ok (validate_frame_at self (validate_index_set self "validate" sources) 0).
Proof.
  unfold source_labelled. intros Hlab Hidx.
  destruct (source_label (dg_data_dict self)) as [labels|] eqn:Hl; [|done].
  unfold validate_start, get_source_indexes. simpl.
  rewrite (source_indexes_loop_filter self sources labels) by
    (by rewrite ?Hlab).
  done.
Qed.

Lemma validate_start_invalid self data_type sources :
  data_type ≠ "train" → data_type ≠ "validate" →
  validate_start self data_type sources
  = Err (Exception "Incorrect argument!").
Proof.
  intros Ht Hv. unfold validate_start.
  by rewrite decide_False, decide_False.
Qed.

(** Turn [n] of the loop. *)
Lemma validate_resume_at self mx a n :
  validate_resume self mx (validate_frame_at self a n)
  = if decide (Some n = mx) then (StopIteration, ValidateClosed)
    else if decide (np_len a ≤ n * batch_size self)
    then (StopIteration, ValidateClosed)
    else match make_batch self (validate_slice self a n) with
         | Ok b => (Yield b,
                    ValidateSuspended mx (validate_frame_at self a (S n)))
         | Err e => (Raise e, ValidateClosed)
         end.
Proof.
  unfold validate_resume, validate_frame_at, validate_slice. simpl.
  destruct (decide (Some n = mx)); [done|].
  destruct (decide (np_len a ≤ n * batch_size self)); [done|].
  destruct (make_batch _ _); [|done].
  do 3 f_equal; lia.
Qed.

Lemma validate_next_at self g mx a n data_type sources :
  g = ValidateCreated data_type sources mx →
  validate_start self data_type sources = Ok (validate_frame_at self a 0) →
  validate_next self (validate_gen_at self g mx a n)
  = validate_resume self mx (validate_frame_at self a n).
Proof. intros -> Hstart. destruct n; simpl; [by rewrite Hstart | done]. Qed.

(** Below the count the loop goes on; at the count it breaks. *)
Lemma validate_count_below self mx len n :
  0 < batch_size self → n < validate_count self mx len →
  Some n ≠ mx ∧ ¬ len ≤ n * batch_size self.
Proof.
  intros Hbs Hn. unfold validate_count, batches_for in Hn.
  destruct (div_up_bounds len (batch_size self) Hbs) as [_ Hm].
  assert (n < (len + batch_size self - 1) / batch_size self) as Hnm
    by (destruct mx; lia).
  destruct (decide (0 < len)) as [Hlen|Hlen].
  - destruct (Hm Hlen) as [_ Hlast]. split; [destruct mx; [|done]|nia].
    intros [= ->]. lia.
  - replace len with 0 in Hnm by lia.
    rewrite Nat.div_small in Hnm by lia. lia.
Qed.

Lemma validate_count_at self mx len :
  0 < batch_size self →
  Some (validate_count self mx len) = mx ∨
  len ≤ validate_count self mx len * batch_size self.
Proof.
  intros Hbs. unfold validate_count, batches_for.
  destruct (div_up_bounds len (batch_size self) Hbs) as [Hcover _].
  destruct mx as [mx|]; [|by right].
  destruct (decide (mx ≤ (len + batch_size self - 1) / batch_size self)).
  - left. f_equal. lia.
  - right. by replace (mx `min` _) with
      ((len + batch_size self - 1) / batch_size self) by lia.
Qed.

(** The run of a validation generator whose batches can all be built: it
    yields [validate_count] batches, each from the slice of its turn, and
    then stops. *)
Lemma validate_run self g mx a data_type sources :
  g = ValidateCreated data_type sources mx →
  validate_start self data_type sources = Ok (validate_frame_at self a 0) →
  0 < batch_size self →
  (∀ n, n < validate_count self mx (np_len a) →
        ∃ b, make_batch self (validate_slice self a n) = Ok b) →
  (∀ n, n ≤ validate_count self mx (np_len a) →
        validate_after self g n = validate_gen_at self g mx a n) ∧
  (∀ n, n < validate_count self mx (np_len a) →
        ∃ b, validate_outcome self g n = Yield b ∧
             make_batch self (validate_slice self a n) = Ok b) ∧
  validate_outcome self g (validate_count self mx (np_len a)) = StopIteration.
Proof.
  intros Hg Hstart Hbs Hok.
  assert (∀ n, n ≤ validate_count self mx (np_len a) →
            validate_after self g n = validate_gen_at self g mx a n) as Hafter.
  { induction n as [|n IH]; intros Hn; [done|]. simpl.
    rewrite IH by lia.
    rewrite (validate_next_at _ _ _ _ _ _ _ Hg Hstart), validate_resume_at.
    destruct (validate_count_below self mx (np_len a) n Hbs) as [? ?]; [lia|].
    rewrite decide_False, decide_False by done.
    by destruct (Hok n) as [b ->]; [lia|]. }
  split_and!; [done | |].
  - intros n Hn. unfold validate_outcome. rewrite Hafter by lia.
    rewrite (validate_next_at _ _ _ _ _ _ _ Hg Hstart), validate_resume_at.
    destruct (validate_count_below self mx (np_len a) n Hbs) as [? ?]; [lia|].
    rewrite decide_False, decide_False by done.
    destruct (Hok n) as [b ->]; [lia|]. by exists b.
  - unfold validate_outcome. rewrite Hafter by lia.
    rewrite (validate_next_at _ _ _ _ _ _ _ Hg Hstart), validate_resume_at.
    destruct (validate_count_at self mx (np_len a) Hbs).
    + by rewrite decide_True.
    + destruct (decide (Some _ = mx)); [done|]. by rewrite decide_True.
Qed.

Lemma from_sources_nil self i : ¬ from_sources self [] i.
Proof.
  unfold from_sources. destruct (source_label _) as [labels|]; [|tauto].
  destruct (labels !! i); [apply not_elem_of_nil | tauto].
Qed.

Lemma validate_index_set_no_source self :
  arr_data (validate_index_set self "validate" []) = [].
Proof.
  unfold validate_index_set. simpl.
  induction (arr_data (validate_audio_indexes self)) as [|i l IH]; [done|].
  by rewrite filter_cons_False by apply from_sources_nil.
Qed.

(** In a valid mode on a constructed feeder the generator starts on its
    index set, whose positions are rows of the store. *)
Lemma validate_ready {R : Type} `{RandomState R} self data_type sources :
  constructed (R:=R) self →
  data_type = "train" ∨ (data_type = "validate" ∧ source_labelled self) →
  let a := validate_index_set self data_type sources in
  validate_start self data_type sources = Ok (validate_frame_at self a 0) ∧
  Forall (λ i, i < length (audio_name (dg_data_dict self))) (arr_data a) ∧
  (arr_data a ≠ [] → arr_dtype a = int64).
Proof.
  intros Hc Hmode a.
  destruct (constructed_indexes self Hc) as (tm & vm & Htrain & Hvalidate).
  destruct Hmode as [->|[-> Hsrc]]; subst a.
  - split_and!; [done | |].
    + unfold validate_index_set. simpl. rewrite Htrain.
      apply get_audio_indexes_bound.
    + unfold validate_index_set. simpl. rewrite Htrain.
      apply get_audio_indexes_dtype.
  - assert (Forall (λ i, i < length (audio_name (dg_data_dict self)))
              (arr_data (validate_audio_indexes self))) as Hb.
    { rewrite Hvalidate. apply get_audio_indexes_bound. }
    split_and!; [by apply validate_start_validate | |].
    + unfold validate_index_set. simpl. apply Forall_forall.
      intros i [_ Hi]%list_elem_of_filter.
      by apply (proj1 (Forall_forall _ _) Hb).
    + unfold validate_index_set. simpl. apply np_array_dtype.
Qed.

(** There every slice the loop takes gives a batch when the store has its
    features and labels in shape. *)
Lemma validate_batches {R : Type} `{RandomState R} self data_type sources n :
  constructed (R:=R) self → featured self → labelled self →
  data_type = "train" ∨ (data_type = "validate" ∧ source_labelled self) →
  let a := validate_index_set self data_type sources in
  ¬ np_len a ≤ n * batch_size self →
  ∃ b, make_batch self (validate_slice self a n) = Ok b.
Proof.
  intros Hc Hfeat Hlab Hmode a Hn.
  destruct (validate_ready self data_type sources Hc Hmode)
    as (_ & Hb & Hd).
  apply make_batch_succeeds; [done | done | | by apply np_slice_in_range].
  simpl. apply Hd. fold a. unfold np_len in Hn.
  destruct (arr_data a); [simpl in Hn; lia | done].
Qed.

End validation.

(** ** Yielded batches *)

Section yields.
Context {F : Type} `{FloatOps F} {R : Type} `{RandomState R}.

(** Whatever the generator and its state, a yielded batch was built by
    [make_batch] from some index array. *)
Lemma yielded_make_batch (self : DataGenerator F) (b : batch F) :
  yielded (R:=R) self b → ∃ idx, make_batch self idx = Ok b.
Proof.
  intros [(g & rs & Hy)|(g & Hy)].
  - destruct g as [|fr|]; simpl in Hy; [| |done].
    + destruct (train_start self rs) as [fr rs']. unfold train_resume in Hy.
      destruct (train_iteration self fr rs') as [[idx fr'] rs''].
      exists idx. destruct (make_batch self idx); simpl in Hy; congruence.
    + unfold train_resume in Hy.
      destruct (train_iteration self fr rs) as [[idx fr'] rs''].
      exists idx. destruct (make_batch self idx); simpl in Hy; congruence.
  - assert (∀ mx fr, (validate_resume self mx fr).1 = Yield b →
                     ∃ idx, make_batch self idx = Ok b) as Hresume.
    { intros mx fr. unfold validate_resume.
      destruct (decide (Some _ = mx)); [done|].
      destruct (decide (np_len _ ≤ _)); [done|].
      destruct (make_batch self _) eqn:Hm; simpl; [|done].
      intros [= ->]. by eexists. }
    destruct g as [data_type sources mx|mx fr|]; simpl in Hy; [| |done].
    + destruct (validate_start self data_type sources); [|done].
      by eapply Hresume.
    + by eapply Hresume.
Qed.

Lemma load_hdf5_unlabelled lb (hf : hdf5 F) dd :
  load_hdf5 lb hf = Ok dd → hf_scene_label hf = None → target dd = None.
Proof.
  unfold load_hdf5. intros Hload Hnone. rewrite Hnone in Hload.
  destruct (hf_audio_name hf); simpl in Hload; [|done].
  destruct (hf_feature hf); simpl in Hload; [|done].
  by injection Hload as <-.
Qed.

End yields.

(** ** Arithmetic of the position in an epoch *)

Lemma succ_mod_last (m k j : nat) :
  j < m → (k * m + j + 1) mod m = 0 ↔ j + 1 = m.
Proof.
  intros Hj. destruct (decide (j + 1 = m)) as [Heq|Hne].
  - split; [done|]. intros _.
    replace (k * m + j + 1) with ((k + 1) * m) by lia.
    apply Nat.Div0.mod_mul.
  - split; [|done]. intros Hmod.
    replace (k * m + j + 1) with (j + 1 + k * m) in Hmod by lia.
    rewrite Nat.Div0.mod_add, Nat.mod_small in Hmod by lia. lia.
Qed.

Section zero_batch_size.
Context {F : Type} `{FloatOps F} {R : Type} `{RandomState R}.

Lemma train_slice_zero (self : DataGenerator F) (rs : R) n :
  batch_size self = 0 → arr_data (train_slice self rs n) = [].
Proof.
  intros Hbs. rewrite train_slice_eq.
  destruct (train_frames self rs n) as [[a p] rs']. simpl.
  unfold train_iteration. simpl. rewrite Hbs.
  destruct (decide (np_len a ≤ p)); [destruct (np_shuffle rs' a)|]; simpl.
  - done.
  - by replace (p + 0 - p) with 0 by lia.
Qed.

End zero_batch_size.

(** ** The example feeders *)

Lemma feeder_init :
  DataGenerator_init Example.lb Example.store Example.train_meta
    Example.validate_meta 3 Example.sc 2 1234
  = Ok (Example.feeder, 1234).
Proof. by vm_compute. Qed.

Lemma unlabelled_init :
  DataGenerator_init Example.lb Example.unlabelled_store Example.train_meta
    Example.validate_meta 3 Example.sc 2 1234
  = Ok (Example.unlabelled, 1234).
Proof. by vm_compute. Qed.

Lemma feeder_constructed : constructed (R:=nat) Example.feeder.
Proof. repeat eexists. exact feeder_init. Qed.

Lemma unlabelled_constructed : constructed (R:=nat) Example.unlabelled.
Proof. repeat eexists. exact unlabelled_init. Qed.

Lemma single_constructed : constructed (R:=nat) Example.single.
Proof.
  exists Example.lb, Example.store, Example.train_meta, Example.validate_meta,
    3, Example.sc, 1, 1234%Z, 1234. by vm_compute.
Qed.

Lemma single_featured : featured Example.single.
Proof. split; [done|]. repeat constructor. Qed.

Lemma single_labelled : labelled Example.single.
Proof. split; [done|]. repeat constructor. Qed.

Lemma feeder_featured : featured Example.feeder.
Proof. split; [done|]. repeat constructor. Qed.

Lemma unlabelled_featured : featured Example.unlabelled.
Proof. split; [done|]. repeat constructor. Qed.

Lemma feeder_labelled : labelled Example.feeder.
Proof. split; [done|]. repeat constructor. Qed.

Lemma feeder_source_labelled : source_labelled Example.feeder.
Proof. done. Qed.

Lemma unlabelled_source_labelled : source_labelled Example.unlabelled.
Proof. done. Qed.

(** * The claims *)

(** C5.  For every constructed feeder, each resolved index set (train and
    validate) is at most as long as its metadata name list and as long as
    the number of metadata names that occur in the names of the store; it
    holds, in order, the first position of every such name.  Names without a
    match are skipped without error: once the store loads, construction
    succeeds on every pair of metadata lists. *)
Theorem get_audio_indexes_matched_count {F : Type} `{FloatOps F}
    {R : Type} `{RandomState R} lb (hf : hdf5 F) train_meta validate_meta
    classes sc bs seed (self : DataGenerator F) (rs0 : R) :
  DataGenerator_init lb hf train_meta validate_meta classes sc bs seed
  = Ok (self, rs0) →
  resolved (audio_name (dg_data_dict self)) train_meta
    (train_audio_indexes self) ∧
  resolved (audio_name (dg_data_dict self)) validate_meta
    (validate_audio_indexes self) ∧
  ∀ train_meta' validate_meta', ∃ self' (rs0' : R),
    DataGenerator_init lb hf train_meta' validate_meta' classes sc bs seed
    = Ok (self', rs0').
Proof.
  unfold DataGenerator_init.
  destruct (load_hdf5 lb hf) as [dd|]; simpl; [|done].
  intros [= <- _]. simpl.
  assert (∀ meta, resolved (audio_name dd) meta (get_audio_indexes meta dd))
    as Hres.
  { intros meta. unfold resolved, get_audio_indexes.
    rewrite np_array_data.
    pose proof (audio_indexes_loop_spec (audio_name dd) meta) as Hspec.
    apply Forall2_length in Hspec as Hlen.
    split_and!; [|done|done].
    rewrite <-Hlen. apply length_filter. }
  split_and!; [apply Hres | apply Hres | intros ? ?; eexists _, _; reflexivity].
Qed.

Lemma get_audio_indexes_matched_count_witness :
  resolved ["a"; "b"; "c"; "d"; "e"] Example.train_meta
    (NdArray int64 [0; 2; 1; 4; 3]) ∧
  resolved ["a"; "b"; "c"; "d"; "e"] Example.validate_meta
    (NdArray int64 [2; 0; 3]).
Proof.
  destruct (get_audio_indexes_matched_count _ _ _ _ _ _ _ _ _ _ feeder_init)
    as (Htrain & Hvalidate & _).
  exact (conj Htrain Hvalidate).
Defined.



(** C7.  For every training stream of a constructed feeder, every yielded
    batch has as many names, feature rows and target rows as its slice has
    positions, never more than [batch_size].  It has exactly [batch_size]
    rows, except that when the length of the train index set is not a
    multiple of [batch_size] the last batch of each epoch, and only that
    one, is shorter and holds the remainder of the division: the slice
    stops at the end of the set, within the order of its own epoch, and the
    reshuffle is left to the next turn. *)
Theorem generate_train_batch_rows {F : Type} `{FloatOps F}
    {R : Type} `{RandomState R} (self : DataGenerator F) (rs : R) n b :
  constructed (R:=R) self →
  train_outcome self rs n = Yield b →
  let len := np_len (train_audio_indexes self) in
  let m := batches_for self len in
  length (batch_feature b) = batch_rows b ∧
  length (batch_target b) = batch_rows b ∧
  batch_rows b = length (arr_data (train_slice self rs n)) ∧
  batch_rows b ≤ batch_size self ∧
  batch_rows b
  = (if decide ((n + 1) mod m = 0 ∧ len mod batch_size self ≠ 0)
     then len mod batch_size self else batch_size self) ∧
  ((n + 1) mod m = 0 ∧ len mod batch_size self ≠ 0 →
   batch_rows b < batch_size self) ∧
  (0 < batch_size self →
   arr_data (train_slice self rs n)
   = take (batch_size self)
       (drop (n mod m * batch_size self) (train_epoch self rs (n / m)).1)).
Proof.
  intros Hc Hyield len m. apply train_outcome_Yield in Hyield.
  destruct (make_batch_rows _ _ _ Hyield) as (Hrows & Hfeat & Htg).
  destruct (make_batch_Ok _ _ _ Hyield) as (Hdtype & _).
  pose proof (train_slice_int64 self rs n Hc Hdtype) as Hlen. fold len in Hlen.
  rewrite Hfeat, Htg, Hrows.
  destruct (decide (batch_size self = 0)) as [Hbs|Hbs].
  { (* no position is ever taken *)
    rewrite train_slice_zero by done. simpl.
    assert (m = 0) as Hm by (unfold m, batches_for; by rewrite Hbs).
    assert (¬ ((n + 1) mod m = 0 ∧ len mod batch_size self ≠ 0)) as Hlast.
    { rewrite Hm. simpl. lia. }
    rewrite decide_False by done.
    split_and!; [done | done | done | lia | lia | tauto | lia]. }
  assert (0 < batch_size self) as Hpos by lia.
  destruct (div_up_bounds len (batch_size self) Hpos) as [Hcover Hm].
  destruct (Hm Hlen) as [Hmpos Hlast].
  fold (batches_for self len) in Hcover, Hmpos, Hlast.
  fold m in Hcover, Hmpos, Hlast.
  pose proof (Nat.div_mod_eq n m) as Hn.
  pose proof (Nat.mod_upper_bound n m) as Hj.
  destruct (train_frames_epoch self rs (n / m) (n mod m) Hlen Hpos)
    as [_ Hslice]; [fold len; fold m; lia|].
  fold len in Hslice. fold m in Hslice.
  replace (n / m * m + n mod m) with n in Hslice by lia.
  rewrite Hslice. simpl.
  rewrite length_take, length_drop, train_epoch_length. fold len.
  pose proof (succ_mod_last m (n / m) (n mod m)) as Hmod.
  replace (n / m * m + n mod m + 1) with (n + 1) in Hmod by lia.
  pose proof (div_up_last len (batch_size self) Hpos Hlen) as Hrem.
  fold (batches_for self len) in Hrem. fold m in Hrem.
  pose proof (Nat.mod_upper_bound len (batch_size self)) as Hr.
  assert (batch_size self `min` (len - n mod m * batch_size self)
          = (if decide ((n + 1) mod m = 0 ∧ len mod batch_size self ≠ 0)
             then len mod batch_size self else batch_size self)) as Hif.
  { destruct (decide (n mod m + 1 = m)) as [Heq|Hne].
    - replace (n mod m) with (m - 1) at 1 by lia.
      destruct (decide (len mod batch_size self = 0)) as [Hrz|Hrz].
      + rewrite decide_False by tauto. lia.
      + rewrite decide_True by (split; [apply Hmod; lia | done]). lia.
    - rewrite decide_False by (intros [? _]; apply Hne, Hmod; lia). nia. }
  split_and!; [done | done | done | lia | done | | done].
  intros Hshort. rewrite Hif, decide_True by done. lia.
Qed.

Lemma generate_train_batch_rows_witness :
  constructed (R:=nat) Example.feeder ∧
  ∃ b, train_outcome Example.feeder 0 2 = Yield b ∧ batch_rows b = 1.
Proof.
  split; [exact feeder_constructed|].
  eexists. split; [vm_compute; reflexivity|].
  exact (proj1 (proj2 (proj2 (proj2 (proj2
    (generate_train_batch_rows Example.feeder 0 2 _ feeder_constructed
       eq_refl)))))).
Defined.

(** C2, as the code has it.  For every constructed feeder whose store has a
    label column with class indexes below [classes_num] and a feature row of
    the dimension of the scalar for every name, with a non-empty train index
    set and a batch size of at least 1, the training stream is infinite:
    for every [n], request number [n] yields a batch. *)
Theorem generate_train_never_stops {F : Type} `{FloatOps F}
    {R : Type} `{RandomState R} (self : DataGenerator F) (rs : R) :
  constructed (R:=R) self → featured self → labelled self →
  arr_data (train_audio_indexes self) ≠ [] →
  1 ≤ batch_size self →
  ∀ n, ∃ b, train_outcome self rs n = Yield b.
Proof.
  intros Hc Hfeat Hlab Hne _ n.
  destruct (constructed_indexes self Hc) as (tm & _ & Htrain & _).
  (* every slice holds rows of the store, in an array of integer dtype *)
  assert (∀ i, arr_dtype (train_slice self rs i) = int64 ∧
               Forall (λ j, j < length (audio_name (dg_data_dict self)))
                 (arr_data (train_slice self rs i))) as Hslices.
  { intros i.
    destruct (train_slice_invariant self rs i
                (length (audio_name (dg_data_dict self)))) as [Hd Hidx].
    { rewrite Htrain. apply get_audio_indexes_bound. }
    split; [|done].
    rewrite Hd, Htrain. apply get_audio_indexes_dtype. by rewrite <-Htrain. }
  (* so every batch is built, and the generator never closes *)
  apply train_outcome_yielding. intros i _.
  destruct (Hslices i) as [Hd Hidx]. by apply make_batch_succeeds.
Qed.

Lemma generate_train_never_stops_witness :
  np_len (train_audio_indexes Example.feeder) = 5 ∧
  batch_size Example.feeder = 2 ∧
  ∃ b, train_outcome Example.feeder 0 (10 * 1000 - 1) = Yield b.
Proof.
  split; [reflexivity|]. split; [reflexivity|].
  refine (generate_train_never_stops Example.feeder 0 feeder_constructed
            feeder_featured feeder_labelled _ _ (10 * 1000 - 1)).
  - discriminate.
  - simpl. lia.
Defined.

(** C2 as stated fails: a store without label column gives a constructed
    feeder with five train indexes and batch size 2 whose first request
    raises. *)
Lemma generate_train_unlabelled_raises :
  constructed (R:=nat) Example.unlabelled ∧
  arr_data (train_audio_indexes Example.unlabelled) ≠ [] ∧
  1 ≤ batch_size Example.unlabelled ∧
  train_outcome Example.unlabelled 0 0 = Raise (KeyError "target") ∧
  ¬ ∃ b, train_outcome Example.unlabelled 0 0 = Yield b.
Proof.
  split_and!.
  - exact unlabelled_constructed.
  - discriminate.
  - simpl. lia.
  - by vm_compute.
  - intros [b Hb]. vm_compute in Hb. discriminate.
Qed.

(** C4, as the code has it.  For every mode other than "train" and
    "validate" the call itself returns a generator and raises nothing; the
    first request to that generator raises [Exception('Incorrect
    argument!')] and closes it, and no request to it ever yields a batch. *)
Theorem generate_validate_invalid_mode {F : Type} `{FloatOps F}
    (self : DataGenerator F) data_type sources max_iteration :
  data_type ≠ "train" → data_type ≠ "validate" →
  ∃ g, generate_validate self data_type sources max_iteration = Ok g ∧
       validate_next self g
       = (Raise (Exception "Incorrect argument!"), ValidateClosed) ∧
       ∀ n b, validate_outcome self g n ≠ Yield b.
Proof.
  intros Ht Hv. eexists. split; [reflexivity|].
  assert (validate_next self (ValidateCreated data_type sources max_iteration)
          = (Raise (Exception "Incorrect argument!"), ValidateClosed))
    as Hfirst.
  { simpl. by rewrite validate_start_invalid. }
  assert (∀ n, validate_after self
                 (ValidateCreated data_type sources max_iteration) (S n)
               = ValidateClosed) as Hclosed.
  { induction n as [|n IH].
    - change (validate_after self ?g 1) with (validate_next self g).2.
      by rewrite Hfirst.
    - change (validate_after self ?g (S (S n)))
        with (validate_next self (validate_after self g (S n))).2.
      by rewrite IH. }
  split; [done|]. intros [|n] b; unfold validate_outcome.
  - change (validate_after self ?g 0) with g. by rewrite Hfirst.
  - by rewrite Hclosed.
Qed.

Lemma generate_validate_invalid_mode_witness :
  ∃ g, generate_validate Example.feeder "test" ["d1"] None = Ok g ∧
       validate_outcome Example.feeder g 0
       = Raise (Exception "Incorrect argument!").
Proof.
  destruct (generate_validate_invalid_mode Example.feeder "test" ["d1"] None)
    as (g & Hg & Hnext & _); [discriminate | discriminate |].
  exists g. split; [exact Hg|]. exact (f_equal fst Hnext).
Defined.

(** C4 as stated fails: the call with an invalid mode does not fail. *)
Lemma generate_validate_invalid_mode_returns :
  "test" ≠ "train" ∧ "test" ≠ "validate" ∧
  generate_validate Example.feeder "test" ["d1"] None
  = Ok (ValidateCreated "test" ["d1"] None) ∧
  ¬ ∃ e, generate_validate Example.feeder "test" ["d1"] None = Err e.
Proof.
  split_and!; [discriminate | discriminate | reflexivity |].
  intros [e He]. discriminate.
Qed.

(** C3, as the code has it.  For every call of [generate_validate] in mode
    "train" or "validate" on a constructed feeder whose batches can be built
    (feature rows and labels in shape, source labels present in mode
    "validate") and whose batch size is positive, the number of batches
    yielded before the stream stops is the minimum of [max_iteration], when
    supplied, and the ceiling of the length of the possibly filtered index
    set over [batch_size].  With [max_iteration = 3] and an index set of at
    least 5 full batches that is 3; in mode "validate" with an empty source
    filter it is 0. *)
Theorem generate_validate_count {F : Type} `{FloatOps F}
    {R : Type} `{RandomState R} (self : DataGenerator F)
    data_type sources max_iteration :
  constructed (R:=R) self → featured self → labelled self →
  0 < batch_size self →
  data_type = "train" ∨ (data_type = "validate" ∧ source_labelled self) →
  ∃ g, generate_validate self data_type sources max_iteration = Ok g ∧
    let a := validate_index_set self data_type sources in
    let c := validate_count self max_iteration (np_len a) in
    (∀ n, n < c → ∃ b, validate_outcome self g n = Yield b) ∧
    validate_outcome self g c = StopIteration ∧
    (max_iteration = Some 3 → 5 * batch_size self ≤ np_len a → c = 3) ∧
    (data_type = "validate" → sources = [] → c = 0).
Proof.
  intros Hc Hfeat Hlab Hbs Hmode. eexists. split; [reflexivity|].
  intros a c.
  destruct (validate_ready self data_type sources Hc Hmode) as (Hstart & _).
  destruct (validate_run self _ max_iteration a data_type sources eq_refl
              Hstart Hbs) as (_ & Hyield & Hstop).
  { intros n Hn.
    eapply validate_batches; [done.. |].
    by destruct (validate_count_below self max_iteration (np_len a) n Hbs). }
  split_and!; [|done| |].
  - intros n Hn. destruct (Hyield n Hn) as (b & Hb & _). by exists b.
  - intros -> Hlen. unfold c, validate_count, batches_for.
    assert (5 ≤ (np_len a + batch_size self - 1) / batch_size self);
      [|lia].
    apply Nat.div_le_lower_bound; lia.
  - intros -> ->. unfold c, a, np_len.
    rewrite validate_index_set_no_source. unfold validate_count, batches_for.
    simpl. rewrite Nat.div_small by lia. destruct max_iteration; lia.
Qed.

Lemma generate_validate_count_witness :
  5 * batch_size Example.single
  ≤ np_len (validate_index_set Example.single "train" []) ∧
  ∃ g, generate_validate Example.single "train" [] (Some 3) = Ok g ∧
       (∀ n, n < 3 → ∃ b, validate_outcome Example.single g n = Yield b) ∧
       validate_outcome Example.single g 3 = StopIteration.
Proof.
  split; [vm_compute; lia|].
  destruct (generate_validate_count Example.single "train" [] (Some 3)
              single_constructed single_featured single_labelled)
    as (g & Hg & Hyield & Hstop & _); [simpl; lia | by left |].
  exists g. split; [exact Hg|]. split; [exact Hyield | exact Hstop].
Defined.

(** C3 as stated fails: on the store without label column the call in mode
    "train" yields no batch, where the minimum of the claim is 3. *)
Lemma generate_validate_unlabelled_count :
  constructed (R:=nat) Example.unlabelled ∧
  validate_count Example.unlabelled None
    (np_len (validate_index_set Example.unlabelled "train" [])) = 3 ∧
  validate_outcome Example.unlabelled (ValidateCreated "train" [] None) 0
  = Raise (KeyError "target") ∧
  ∀ n b,
    validate_outcome Example.unlabelled (ValidateCreated "train" [] None) n
    ≠ Yield b.
Proof.
  split_and!; [exact unlabelled_constructed | done | done |].
  intros n b. unfold validate_outcome.
  assert (∀ n, validate_after Example.unlabelled
                 (ValidateCreated "train" [] None) (S n) = ValidateClosed)
    as Hclosed.
  { induction n0 as [|n0 IH]; [done|].
    change (validate_after ?s ?g (S (S n0)))
      with (validate_next s (validate_after s g (S n0))).2.
    by rewrite IH. }
  destruct n; [done | by rewrite Hclosed].
Qed.

(** C6, as the code has it.  For every call of [generate_validate] in mode
    "validate" on a constructed feeder whose batches can be built, with a
    positive batch size and any source set, the index set of the stream is
    the filter, in order, of the validation index set to the rows whose
    source label is in the source set, and the row indexes under the yielded
    batches, put end to end in yield order, are its first
    [count * batch_size] entries, [count] being the number of batches
    yielded: the whole filter when [max_iteration] is absent or at least
    the number of slices that cover it, a proper prefix otherwise.  Nothing
    is shuffled or reordered. *)
Theorem generate_validate_order {F : Type} `{FloatOps F}
    {R : Type} `{RandomState R} (self : DataGenerator F)
    sources max_iteration :
  constructed (R:=R) self → featured self → labelled self →
  source_labelled self → 0 < batch_size self →
  ∃ g a, generate_validate self "validate" sources max_iteration = Ok g ∧
    get_source_indexes (validate_audio_indexes self) (dg_data_dict self)
      sources = Ok a ∧
    arr_data a = filter (from_sources self sources)
                   (arr_data (validate_audio_indexes self)) ∧
    let c := validate_count self max_iteration (np_len a) in
    (∀ n, n < c → ∃ b, validate_outcome self g n = Yield b ∧
                       make_batch self (validate_slice self a n) = Ok b) ∧
    validate_outcome self g c = StopIteration ∧
    concat ((λ n, arr_data (validate_slice self a n)) <$> seq 0 c)
    = take (c * batch_size self) (arr_data a) ∧
    (max_iteration = None ∨
     (∃ mx, max_iteration = Some mx ∧ batches_for self (np_len a) ≤ mx) →
     concat ((λ n, arr_data (validate_slice self a n)) <$> seq 0 c)
     = arr_data a) ∧
    (∀ mx, max_iteration = Some mx → mx < batches_for self (np_len a) →
           c * batch_size self < np_len a).
Proof.
  intros Hc Hfeat Hlab Hsrc Hbs.
  assert ("validate" = "train" ∨ "validate" = "validate" ∧ source_labelled self)
    as Hmode by by right.
  exists (ValidateCreated "validate" sources max_iteration),
    (validate_index_set self "validate" sources).
  set (a := validate_index_set self "validate" sources).
  destruct (validate_ready self "validate" sources Hc Hmode) as (Hstart & _).
  fold a in Hstart.
  assert (concat ((λ n, arr_data (validate_slice self a n))
                  <$> seq 0 (validate_count self max_iteration (np_len a)))
          = take (validate_count self max_iteration (np_len a)
                  * batch_size self) (arr_data a)) as Hconcat.
  { rewrite <-concat_slices. f_equal. apply list_fmap_ext. intros i n _.
    unfold validate_slice. apply np_slice_data. }
  destruct (validate_run self _ max_iteration a "validate" sources eq_refl
              Hstart Hbs) as (_ & Hyield & Hstop).
  { intros n Hn. eapply validate_batches; [done.. |].
    by destruct (validate_count_below self max_iteration (np_len a) n Hbs). }
  split; [done|]. split.
  { destruct (constructed_indexes self Hc) as (tm & vm & _ & Hvalidate).
    apply get_source_indexes_filter; [done|].
    rewrite Hvalidate. apply get_audio_indexes_bound. }
  split; [done|]. intros c. split; [exact Hyield|]. split; [exact Hstop|].
  split; [exact Hconcat|].
  destruct (div_up_bounds (np_len a) (batch_size self) Hbs) as [Hcover Hm].
  fold (batches_for self (np_len a)) in Hcover, Hm.
  split.
  - intros Hall. unfold c. rewrite Hconcat. apply take_ge.
    unfold validate_count, np_len in *.
    destruct Hall as [->|(mx & -> & Hmx)]; [done|].
    by replace (mx `min` _) with (batches_for self (length (arr_data a)))
      by lia.
  - intros mx -> Hmx. unfold c, validate_count.
    destruct (decide (0 < np_len a)) as [Hlen|Hlen].
    + destruct (Hm Hlen) as [_ Hlast]. nia.
    + exfalso. unfold batches_for in Hmx.
      replace (np_len a) with 0 in Hmx by lia.
      rewrite Nat.div_small in Hmx by lia. lia.
Qed.

Lemma generate_validate_order_witness :
  ∃ g a,
    generate_validate Example.feeder "validate" ["d1"] None = Ok g ∧
    arr_data a = [2; 0; 3] ∧
    concat ((λ n, arr_data (validate_slice Example.feeder a n)) <$> seq 0 2)
    = arr_data a.
Proof.
  destruct (generate_validate_order Example.feeder ["d1"] None
              feeder_constructed feeder_featured feeder_labelled
              feeder_source_labelled (Nat.lt_0_succ 1))
    as (g & a & Hg & _ & Ha & _ & _ & _ & Hall & _).
  exists g, a. split; [exact Hg|]. split; [exact Ha|].
  assert (np_len a = 3) as Hlen.
  { unfold np_len. exact (f_equal length Ha). }
  assert (validate_count Example.feeder None (np_len a) = 2) as Hcount.
  { exact (f_equal (validate_count Example.feeder None) Hlen). }
  rewrite Hcount in Hall. exact (Hall (or_introl eq_refl)).
Defined.

(** C6 as stated fails: with [max_iteration = 1] the stream yields the one
    batch of rows 2 and 0 and stops, while the filter of the validation
    index set to source "d1" is rows 2, 0 and 3. *)
Lemma generate_validate_truncated :
  let g := ValidateCreated "validate" ["d1"] (Some 1) in
  generate_validate Example.feeder "validate" ["d1"] (Some 1) = Ok g ∧
  filter (from_sources Example.feeder ["d1"])
    (arr_data (validate_audio_indexes Example.feeder)) = [2; 0; 3] ∧
  (∃ b, validate_outcome Example.feeder g 0 = Yield b ∧
        make_batch Example.feeder (NdArray int64 [2; 0]) = Ok b) ∧
  validate_outcome Example.feeder g 1 = StopIteration ∧
  [2; 0] ≠ [2; 0; 3].
Proof.
  split_and!; [done | by vm_compute | | by vm_compute | discriminate].
  eexists. split; by vm_compute.
Qed.

(** C9.  For every batch yielded by either generator, the target field is
    the one-hot encoding, over width [classes_num], of the sparse targets
    gathered at the rows of the batch: the row of a class index [c] has
    [classes_num] entries, 1 at position [c] and 0 at every other position.
    For the sparse targets [2, 0, 1] and 3 classes the encoding is
    [[0,0,1],[1,0,0],[0,1,0]]. *)
Theorem yielded_batch_one_hot {F : Type} `{FloatOps F}
    {R : Type} `{RandomState R} (self : DataGenerator F) (b : batch F) :
  yielded (R:=R) self b →
  (∃ idx tg sparse_target,
     target (dg_data_dict self) = Some tg ∧
     np_take (audio_name (dg_data_dict self)) idx = Ok (batch_audio_name b) ∧
     np_take tg idx = Ok sparse_target ∧
     sparse_to_categorical sparse_target (classes_num self)
     = Ok (batch_target b) ∧
     ∀ i c, sparse_target !! i = Some c →
       ∃ row, batch_target b !! i = Some row ∧
              length row = classes_num self ∧
              c < classes_num self ∧
              ∀ j, j < classes_num self →
                   row !! j = Some (if decide (j = c) then 1 else 0)%Z) ∧
  sparse_to_categorical [2; 0; 1] 3
  = Ok [[0; 0; 1]; [1; 0; 0]; [0; 1; 0]]%Z.
Proof.
  intros Hy. split; [|done].
  destruct (yielded_make_batch self b Hy) as [idx Hb].
  destruct (make_batch_Ok _ _ _ Hb)
    as (Hd & Hn & _ & tg & sparse & Htg & Hs & Hc & Ho).
  exists idx, tg, sparse.
  split_and!; [done | by apply np_take_Ok | by apply np_take_Ok | |].
  - by apply sparse_to_categorical_Ok.
  - intros i c Hi. exists (one_hot (classes_num self) c).
    assert (c < classes_num self) as Hlt
      by (eapply (proj1 (Forall_forall _ _) Hc), list_elem_of_lookup_2, Hi).
    split_and!; [| apply one_hot_length | done |].
    + by rewrite Ho, list_lookup_fmap, Hi.
    + intros j Hj. by apply one_hot_lookup.
Qed.

Lemma yielded_batch_one_hot_witness :
  yielded (R:=nat) Example.feeder Example.first_batch ∧
  ∃ idx tg sparse_target,
    target (dg_data_dict Example.feeder) = Some tg ∧
    np_take tg idx = Ok sparse_target ∧
    sparse_to_categorical sparse_target 3
    = Ok [[1; 0; 0]; [0; 1; 0]]%Z.
Proof.
  assert (yielded (R:=nat) Example.feeder Example.first_batch) as Hy.
  { left. exists TrainCreated, 0. vm_compute. reflexivity. }
  split; [exact Hy|].
  destruct (yielded_batch_one_hot Example.feeder Example.first_batch Hy)
    as [(idx & tg & sparse & Htg & _ & Hs & Ho & _) _].
  exists idx, tg, sparse. split; [exact Htg|]. split; [exact Hs | exact Ho].
Defined.

(** C10, as the code has it.  For every feeder constructed from a store
    without [scene_label] column, no request to either stream ever yields a
    batch.  The first request raises [KeyError('target')] whenever it gets
    as far as building a batch from a store with its features in shape: on
    the training stream when the train index set is not empty, on the
    validation stream when the mode is valid (with source labels present in
    mode "validate"), the possibly filtered index set is not empty and
    [max_iteration] is not 0. *)
Theorem unlabelled_store_never_yields {F : Type} `{FloatOps F}
    {R : Type} `{RandomState R} lb (hf : hdf5 F) train_meta validate_meta
    classes sc bs seed (self : DataGenerator F) (rs0 : R) :
  DataGenerator_init lb hf train_meta validate_meta classes sc bs seed
  = Ok (self, rs0) →
  hf_scene_label hf = None →
  (∀ b, ¬ yielded (R:=R) self b) ∧
  (featured self →
   (arr_data (train_audio_indexes self) ≠ [] →
    ∀ rs : R, train_outcome self rs 0 = Raise (KeyError "target")) ∧
   (∀ data_type sources max_iteration g,
      generate_validate self data_type sources max_iteration = Ok g →
      data_type = "train" ∨ (data_type = "validate" ∧ source_labelled self) →
      arr_data (validate_index_set self data_type sources) ≠ [] →
      max_iteration ≠ Some 0 →
      validate_outcome self g 0 = Raise (KeyError "target"))).
Proof.
  intros Hinit Hnone.
  assert (constructed (R:=R) self) as Hc by (repeat eexists; exact Hinit).
  assert (target (dg_data_dict self) = None) as Htg.
  { unfold DataGenerator_init in Hinit.
    destruct (load_hdf5 lb hf) as [dd|] eqn:Hload; simpl in Hinit; [|done].
    injection Hinit as <- _. simpl. by eapply load_hdf5_unlabelled. }
  split.
  - intros b [idx Hb]%yielded_make_batch.
    destruct (make_batch_unlabelled self idx Htg) as [Hno _].
    exact (Hno b Hb).
  - intros Hfeat. split.
    + intros Hne rs.
      destruct (constructed_indexes self Hc) as (tm & _ & Htrain & _).
      destruct (train_slice_invariant self rs 0
                  (length (audio_name (dg_data_dict self)))) as [Hd Hidx].
      { rewrite Htrain. apply get_audio_indexes_bound. }
      destruct (make_batch_unlabelled self (train_slice self rs 0) Htg)
        as [_ Herr].
      rewrite train_outcome_eq.
      change (train_after self rs 0) with (train_gen_at self rs 0).
      rewrite train_next_at, Herr; [done | done | | done].
      rewrite Hd, Htrain. apply get_audio_indexes_dtype. by rewrite <-Htrain.
    + intros data_type sources mx g [= <-] Hmode Hne Hmx.
      set (a := validate_index_set self data_type sources) in *.
      destruct (validate_ready self data_type sources Hc Hmode)
        as (Hstart & Hb & Hd).
      fold a in Hstart, Hb, Hd. unfold validate_outcome.
      change (validate_after self ?g 0) with (validate_gen_at self g mx a 0).
      rewrite (validate_next_at _ _ _ _ _ _ _ eq_refl Hstart).
      rewrite validate_resume_at.
      rewrite decide_False by congruence.
      rewrite decide_False
        by (unfold np_len; destruct (arr_data a); [done | simpl; lia]).
      destruct (make_batch_unlabelled self (validate_slice self a 0) Htg)
        as [_ Herr].
      rewrite Herr; [done | done | by apply Hd | by apply np_slice_in_range].
Qed.

Lemma unlabelled_store_never_yields_witness :
  hf_scene_label Example.unlabelled_store = None ∧
  train_outcome Example.unlabelled 0 0 = Raise (KeyError "target") ∧
  ∀ b, ¬ yielded (R:=nat) Example.unlabelled b.
Proof.
  split; [reflexivity|].
  destruct (unlabelled_store_never_yields _ _ _ _ _ _ _ _ _ _
              unlabelled_init eq_refl) as [Hnever Hfirst].
  destruct (Hfirst unlabelled_featured) as [Htrain _].
  split; [|exact Hnever]. apply Htrain. discriminate.
Defined.

(** C10 as stated fails: on the store without label column the first
    request to a validation stream with an empty source filter stops the
    stream and raises no missing-key error. *)
Lemma unlabelled_validate_stops :
  hf_scene_label Example.unlabelled_store = None ∧
  constructed (R:=nat) Example.unlabelled ∧
  generate_validate Example.unlabelled "validate" [] None
  = Ok (ValidateCreated "validate" [] None) ∧
  validate_outcome Example.unlabelled (ValidateCreated "validate" [] None) 0
  = StopIteration ∧
  ¬ ∃ key,
      validate_outcome Example.unlabelled
        (ValidateCreated "validate" [] None) 0 = Raise (KeyError key).
Proof.
  split_and!; [done | exact unlabelled_constructed | done | by vm_compute |].
  intros [key Hkey]. vm_compute in Hkey. discriminate.
Qed.

(** * Further properties of the code *)

(** ** Loading the store *)









(** ** Resolving names *)

Lemma first_position_name names name name' i :
  first_position names name i → first_position names name' i → name = name'.
Proof. intros [Hi _] [Hi' _]. congruence. Qed.

Lemma audio_indexes_loop_NoDup names meta :
  NoDup meta → NoDup (audio_indexes_loop names meta).
Proof.
  intros Hnd.
  pose proof (audio_indexes_loop_spec names meta) as Hspec.
  assert (NoDup (filter (λ name, name ∈ names) meta)) as Hfilter
    by by apply NoDup_filter.
  induction Hspec as [|name i found idx Hfirst Hrest IH]; [constructor|].
  apply NoDup_cons in Hfilter as [Hnotin Hfilter].
  constructor; [|by apply IH].
  intros [k Hk]%list_elem_of_lookup.
  destruct (Forall2_lookup_r _ _ _ _ _ Hrest Hk) as (name' & Hname' & Hfirst').
  rewrite (first_position_name _ _ _ _ Hfirst Hfirst') in Hnotin.
  by apply Hnotin, list_elem_of_lookup_2 with k.
Qed.

Lemma audio_indexes_loop_app names meta1 meta2 :
  audio_indexes_loop names (meta1 ++ meta2)
  = audio_indexes_loop names meta1 ++ audio_indexes_loop names meta2.
Proof.
  unfold audio_indexes_loop at 1. rewrite foldl_app.
  by rewrite foldl_append_acc.
Qed.

Lemma length_filter_all {A} (P : A → Prop) `{∀ x, Decision (P x)} (l : list A) :
  length (filter P l) = length l ↔ Forall P l.
Proof.
  induction l as [|x l IH]; [by split; [constructor|]|].
  rewrite filter_cons. pose proof (length_filter P l) as Hle.
  destruct (decide (P x)) as [Hx|Hx]; simpl.
  - rewrite Forall_cons. split.
    + intros Hlen. split; [done|]. apply IH. lia.
    + intros [_ Hall]. f_equal. by apply IH.
  - split; [lia|]. by intros [? _]%Forall_cons.
Qed.

(** X4.  Metadata that lists every name once resolves to distinct rows: if
    the train (or validate) metadata names of a constructed feeder have no
    duplicate, its train (or validate) index set has none either, whether
    or not the store repeats a name. *)
Theorem get_audio_indexes_NoDup {F : Type} `{FloatOps F}
    {R : Type} `{RandomState R} lb (hf : hdf5 F) train_meta validate_meta
    classes sc bs seed (self : DataGenerator F) (rs0 : R) :
  DataGenerator_init lb hf train_meta validate_meta classes sc bs seed
  = Ok (self, rs0) →
  (NoDup train_meta → NoDup (arr_data (train_audio_indexes self))) ∧
  (NoDup validate_meta → NoDup (arr_data (validate_audio_indexes self))).
Proof.
  unfold DataGenerator_init.
  destruct (load_hdf5 lb hf) as [dd|]; simpl; [|done].
  intros [= <- _]. simpl.
  split; intros Hnd; by apply audio_indexes_loop_NoDup.
Qed.

Lemma get_audio_indexes_NoDup_witness :
  NoDup Example.train_meta ∧
  NoDup (arr_data (train_audio_indexes Example.feeder)).
Proof.
  assert (NoDup Example.train_meta) as Hnd.
  { apply (bool_decide_unpack _). vm_compute. exact I. }
  split; [exact Hnd|].
  exact (proj1 (get_audio_indexes_NoDup _ _ _ _ _ _ _ _ _ _ feeder_init) Hnd).
Defined.

(** X5.  No metadata entry is dropped exactly when every metadata name is
    in the store: the index set is as long as the metadata if and only if
    each of its names occurs among the names of the store. *)
Theorem get_audio_indexes_complete_iff {F : Type} (meta : list string)
    (dd : data_dict F) :
  length (arr_data (get_audio_indexes meta dd)) = length meta ↔
  Forall (λ name, name ∈ audio_name dd) meta.
Proof.
  unfold get_audio_indexes. simpl.
  pose proof (audio_indexes_loop_spec (audio_name dd) meta) as Hspec.
  apply Forall2_length in Hspec. rewrite <-Hspec.
  apply length_filter_all.
Qed.

(** X6.  Resolution goes name by name: the index set of two metadata lists
    put end to end is the index set of the first followed by the index set
    of the second, and every index it holds is a row of the store whose name
    is one of the metadata names. *)
Theorem get_audio_indexes_app {F : Type} (meta1 meta2 : list string)
    (dd : data_dict F) :
  arr_data (get_audio_indexes (meta1 ++ meta2) dd)
  = arr_data (get_audio_indexes meta1 dd)
    ++ arr_data (get_audio_indexes meta2 dd) ∧
  Forall (λ i, ∃ name, name ∈ meta1 ++ meta2 ∧ audio_name dd !! i = Some name)
    (arr_data (get_audio_indexes (meta1 ++ meta2) dd)).
Proof.
  unfold get_audio_indexes. simpl. split; [apply audio_indexes_loop_app|].
  pose proof (audio_indexes_loop_spec (audio_name dd) (meta1 ++ meta2))
    as Hspec.
  apply Forall_forall. intros i [k Hk]%list_elem_of_lookup.
  destruct (Forall2_lookup_r _ _ _ _ _ Hspec Hk) as (name & Hname & [Hi _]).
  exists name. split; [|done].
  apply list_elem_of_lookup_2 in Hname.
  by apply list_elem_of_filter in Hname as [_ ?].
Qed.

(** ** Filtering by source *)

Section source_filter.
Context {F : Type} `{FloatOps F}.
Implicit Types (self : DataGenerator F).

Lemma source_indexes_loop_Ok self sources indexes kept :
  source_indexes_loop (dg_data_dict self) sources indexes = Ok kept →
  kept = filter (from_sources self sources) indexes ∧
  (indexes ≠ [] →
   ∃ labels, source_label (dg_data_dict self) = Some labels ∧
             Forall (λ i, i < length labels) indexes).
Proof.
  revert kept. induction indexes as [|i rest IH]; intros kept; simpl.
  - intros [= <-]. by split.
  - destruct (source_label (dg_data_dict self)) as [labels|] eqn:Hl;
      simpl; [|done].
    destruct (labels !! i) as [s|] eqn:Hs; simpl; [|done].
    destruct (source_indexes_loop _ sources rest) as [kept'|] eqn:Hrest;
      simpl; [|done].
    intros [= <-]. destruct (IH kept' eq_refl) as [-> Hrange]. split.
    + rewrite filter_cons.
      assert (from_sources self sources i ↔ s ∈ sources) as Hiff.
      { unfold from_sources. by rewrite Hl, Hs. }
      destruct (decide (s ∈ sources)),
        (decide (from_sources self sources i));
        first [done | exfalso; tauto].
    + intros _. exists labels. split; [done|]. constructor.
      * by eapply lookup_lt_Some.
      * destruct rest as [|j rest']; [constructor|].
        destruct Hrange as (labels' & Hl' & Hall); [done|].
        by simplify_eq.
Qed.

End source_filter.

(** X7.  Whenever [get_source_indexes] returns, what it returns is the
    filter of the indexes, in their order, to the rows whose source label is
    in [sources]; the array has integer dtype exactly when a row is kept, and
    every index given had a source label to look at. *)
Theorem get_source_indexes_Ok {F : Type} `{FloatOps F}
    (self : DataGenerator F) (indexes a : ndarray) sources :
  get_source_indexes indexes (dg_data_dict self) sources = Ok a →
  arr_data a = filter (from_sources self sources) (arr_data indexes) ∧
  (arr_dtype a = int64 ↔ arr_data a ≠ []) ∧
  arr_data a `sublist_of` arr_data indexes ∧
  (arr_data indexes ≠ [] →
   ∃ labels, source_label (dg_data_dict self) = Some labels ∧
             Forall (λ i, i < length labels) (arr_data indexes)).
Proof.
  unfold get_source_indexes.
  destruct (source_indexes_loop _ sources (arr_data indexes)) as [kept|]
    eqn:Hloop; simpl; [|done].
  intros [= <-]. destruct (source_indexes_loop_Ok _ _ _ _ Hloop) as [-> Hr].
  simpl. split_and!; [done | | apply sublist_filter; apply _ | done].
  by destruct (filter _ _).
Qed.

Lemma get_source_indexes_Ok_witness :
  get_source_indexes (validate_audio_indexes Example.feeder)
    (dg_data_dict Example.feeder) ["d2"] = Ok (NdArray float64 []) ∧
  filter (from_sources Example.feeder ["d2"]) [2; 0; 3] = [].
Proof.
  assert (get_source_indexes (validate_audio_indexes Example.feeder)
            (dg_data_dict Example.feeder) ["d2"] = Ok (NdArray float64 []))
    as Hget by (vm_compute; reflexivity).
  split; [exact Hget|].
  exact (eq_sym (proj1 (get_source_indexes_Ok Example.feeder _ _ _ Hget))).
Defined.

(** X8.  What [get_source_indexes] does without a usable source label.
    With no ['source_label'] key it returns the empty array when there is
    no index to look at and raises [KeyError('source_label')] as soon as
    there is one; with the key present it raises [IndexError] when an index
    lies past the end of the labels, and returns otherwise. *)
Theorem get_source_indexes_errors {F : Type} `{FloatOps F}
    (dd : data_dict F) (indexes : ndarray) sources :
  (source_label dd = None →
   get_source_indexes indexes dd sources
   = match arr_data indexes with
     | [] => Ok (np_array [])
     | _ :: _ => Err (KeyError "source_label")
     end) ∧
  (∀ labels, source_label dd = Some labels →
     (Forall (λ i, i < length labels) (arr_data indexes) →
      ∃ a, get_source_indexes indexes dd sources = Ok a) ∧
     (¬ Forall (λ i, i < length labels) (arr_data indexes) →
      get_source_indexes indexes dd sources = Err IndexError)).
Proof.
  unfold get_source_indexes. split.
  - intros Hnone. destruct (arr_data indexes) as [|i rest]; simpl; [done|].
    by rewrite Hnone.
  - intros labels Hl.
    assert (∀ idx,
      (Forall (λ i, i < length labels) idx →
       ∃ kept, source_indexes_loop dd sources idx = Ok kept) ∧
      (¬ Forall (λ i, i < length labels) idx →
       source_indexes_loop dd sources idx = Err IndexError)) as Hloop.
    { induction idx as [|i rest [IHok IHerr]]; simpl.
      - split; [by eexists | intros Hno; destruct Hno; constructor].
      - rewrite Hl. simpl. split.
        + intros [Hi Hrest]%Forall_cons.
          destruct (lookup_lt_is_Some_2 labels i Hi) as [s ->]. simpl.
          destruct (IHok Hrest) as [kept ->]. simpl. by eexists.
        + intros Hno. destruct (labels !! i) as [s|] eqn:Hs; simpl; [|done].
          rewrite IHerr; [done|]. intros Hrest. apply Hno. constructor;
            [by eapply lookup_lt_Some | done]. }
    destruct (Hloop (arr_data indexes)) as [Hok Herr]. split.
    + intros Hall. destruct (Hok Hall) as [kept ->]. simpl. by eexists.
    + intros Hno. by rewrite (Herr Hno).
Qed.

(** ** More on the training generator *)

Section more_training.
Context {F : Type} `{FloatOps F} {R : Type} `{RandomState R}.
Implicit Types (self : DataGenerator F) (rs : R) (b : batch F).

(** What holds of every train index holds of every position of a slice. *)
Lemma train_slice_Forall (P : nat → Prop) self rs n :
  Forall P (arr_data (train_audio_indexes self)) →
  Forall P (arr_data (train_slice self rs n)).
Proof.
  intros HP. rewrite train_slice_eq.
  destruct (train_frames_invariant self rs n) as [_ Hp].
  destruct (train_frames self rs n) as [[a p] rs']. simpl in *.
  assert (Forall P (arr_data a)) as Ha by by rewrite Hp.
  destruct (decide (np_len a ≤ p)) as [Hlt|Hlt].
  - rewrite train_iteration_reset by done. rewrite np_shuffle_eq. simpl.
    apply Forall_take, Forall_drop. by rewrite shuffle_Permutation.
  - rewrite train_iteration_inside by lia. simpl.
    by apply Forall_take, Forall_drop.
Qed.

Lemma train_slices_batchable self rs n :
  constructed (R:=R) self → featured self → labelled self →
  arr_data (train_audio_indexes self) ≠ [] →
  ∃ b, make_batch self (train_slice self rs n) = Ok b.
Proof.
  intros Hc Hfeat Hlab Hne.
  destruct (constructed_indexes self Hc) as (tm & _ & Htrain & _).
  destruct (train_slice_invariant self rs n
              (length (audio_name (dg_data_dict self)))) as [Hd Hidx].
  { rewrite Htrain. apply get_audio_indexes_bound. }
  apply make_batch_succeeds; [done | done | | done].
  rewrite Hd, Htrain. apply get_audio_indexes_dtype. by rewrite <-Htrain.
Qed.

(** The slices of epoch [k], put end to end, are its order. *)
Lemma train_epoch_slices self rs k :
  arr_data (train_audio_indexes self) ≠ [] → 0 < batch_size self →
  concat ((λ j, arr_data (train_slice self rs
                            (k * batches_for self
                                   (np_len (train_audio_indexes self)) + j)))
          <$> seq 0 (batches_for self (np_len (train_audio_indexes self))))
  = (train_epoch self rs k).1.
Proof.
  intros Hne Hbs.
  assert (0 < np_len (train_audio_indexes self)) as Hlen.
  { unfold np_len. destruct (arr_data (train_audio_indexes self)); [done|].
    simpl. lia. }
  rewrite <-(take_ge (train_epoch self rs k).1
               (batches_for self (np_len (train_audio_indexes self))
                * batch_size self)).
  - rewrite <-concat_slices. f_equal. apply list_fmap_ext.
    intros i j [Hij Hj]%lookup_seq. simpl in Hij. subst j.
    by destruct (train_frames_epoch self rs k i Hlen Hbs Hj) as [_ ->].
  - rewrite train_epoch_length.
    by destruct (div_up_bounds (np_len (train_audio_indexes self))
                   (batch_size self) Hbs) as [? _].
Qed.

(** A request that does not yield leaves the generator closed, and a closed
    generator stays closed. *)
Lemma train_next_closes self g rs :
  (∀ b, (train_next self g rs).1.1 ≠ Yield b) →
  (train_next self g rs).1.2 = TrainClosed.
Proof.
  assert (∀ fr rs', (∀ b, (train_resume self fr rs').1.1 ≠ Yield b) →
                    (train_resume self fr rs').1.2 = TrainClosed) as Hresume.
  { intros fr rs'. unfold train_resume.
    destruct (train_iteration self fr rs') as [[idx fr'] rs''].
    destruct (make_batch self idx) as [b|e]; simpl; [|done].
    intros Hno. by destruct (Hno b). }
  destruct g as [|fr|]; simpl; [|apply Hresume|done].
  destruct (train_start self rs) as [fr rs']. apply Hresume.
Qed.

Lemma train_after_closed self rs n k :
  (train_after self rs n).1 = TrainClosed → n ≤ k →
  (train_after self rs k).1 = TrainClosed.
Proof.
  intros Hclosed. induction 1 as [|k _ IH]; [done|].
  rewrite train_after_S. by rewrite IH.
Qed.

End more_training.

(** X9.  On a constructed feeder whose train index set is empty, whatever
    the store, the first request to the training stream raises
    [IndexError]: the empty index array has dtype float64 and cannot index
    the names.  The generator is closed by it, and every later request
    finds it exhausted. *)
Theorem generate_train_empty {F : Type} `{FloatOps F}
    {R : Type} `{RandomState R} (self : DataGenerator F) (rs : R) :
  constructed (R:=R) self →
  arr_data (train_audio_indexes self) = [] →
  train_outcome self rs 0 = Raise IndexError ∧
  ∀ n, 0 < n → train_outcome self rs n = StopIteration.
Proof.
  intros Hc Hempty.
  destruct (constructed_indexes self Hc) as (tm & _ & Htrain & _).
  assert (arr_dtype (train_audio_indexes self) = float64) as Hfloat.
  { rewrite Htrain in Hempty |- *. unfold get_audio_indexes in *.
    simpl in Hempty. by rewrite Hempty. }
  assert (make_batch self (train_slice self rs 0) = Err IndexError) as Herr.
  { destruct (train_slice_invariant self rs 0 0) as [Hd _].
    { rewrite Hempty. constructor. }
    unfold make_batch, np_take. by rewrite Hd, Hfloat. }
  assert (train_next self TrainCreated rs
          = (Raise IndexError, TrainClosed, (train_frames self rs 1).2))
    as Hfirst.
  { change TrainCreated with (train_gen_at self rs 0).1.
    change rs with (train_gen_at self rs 0).2 at 2.
    by rewrite train_next_at, Herr. }
  split.
  - rewrite train_outcome_eq.
    change (train_after self rs 0) with (TrainCreated, rs).
    cbn [fst snd]. by rewrite Hfirst.
  - intros n Hn. rewrite train_outcome_eq.
    rewrite (train_after_closed self rs 1 n); [done | | lia].
    rewrite train_after_S.
    change (train_after self rs 0) with (TrainCreated, rs).
    cbn [fst snd]. by rewrite Hfirst.
Qed.

Lemma generate_train_empty_witness :
  constructed (R:=nat) Cases.untrained ∧
  train_outcome Cases.untrained 0 0 = Raise IndexError ∧
  train_outcome Cases.untrained 0 7 = StopIteration.
Proof.
  assert (constructed (R:=nat) Cases.untrained) as Hc.
  { exists Example.lb, Example.store, ["zz"], Example.validate_meta,
      3, Example.sc, 2, 1234%Z, 1234. vm_compute. reflexivity. }
  split; [exact Hc|].
  destruct (generate_train_empty Cases.untrained 0 Hc eq_refl)
    as [Hfirst Hlater].
  split; [exact Hfirst|]. apply Hlater. apply Nat.lt_0_succ.
Defined.

(** X10.  The state of a training generator in closed form.  On a
    constructed feeder with features and labels in shape, a non-empty train
    index set and a positive batch size, after request [n] the generator
    holds the order of epoch [n / m], [m] being the number of batches of an
    epoch, its pointer is [(n mod m + 1) * batch_size], below the length
    plus the batch size, and the random state is the one the shuffle for
    that epoch left: one shuffle is drawn per epoch and none within it. *)
Theorem generate_train_state {F : Type} `{FloatOps F}
    {R : Type} `{RandomState R} (self : DataGenerator F) (rs : R) n :
  constructed (R:=R) self → featured self → labelled self →
  arr_data (train_audio_indexes self) ≠ [] →
  0 < batch_size self →
  let len := np_len (train_audio_indexes self) in
  let m := batches_for self len in
  train_after self rs (S n)
  = (TrainSuspended
       {| tf_audio_indexes := NdArray int64 (train_epoch self rs (n / m)).1;
          tf_pointer := (n mod m + 1) * batch_size self |},
     (train_epoch self rs (n / m)).2) ∧
  (n mod m + 1) * batch_size self < len + batch_size self.
Proof.
  intros Hc Hfeat Hlab Hne Hbs len m.
  assert (0 < len) as Hlen.
  { unfold len, np_len.
    destruct (arr_data (train_audio_indexes self)); [done | simpl; lia]. }
  destruct (div_up_bounds len (batch_size self) Hbs) as [_ Hm].
  destruct (Hm Hlen) as [Hmpos Hlast].
  fold (batches_for self len) in Hmpos, Hlast. fold m in Hmpos, Hlast.
  pose proof (Nat.div_mod_eq n m) as Hn.
  pose proof (Nat.mod_upper_bound n m) as Hj.
  split; [|nia].
  rewrite train_after_yielding
    by (intros; by apply train_slices_batchable).
  destruct (train_frames_epoch self rs (n / m) (n mod m) Hlen Hbs)
    as [Hframe _]; [fold len; fold m; lia|].
  fold len in Hframe. fold m in Hframe.
  replace (n / m * m + n mod m) with n in Hframe by lia.
  unfold train_gen_at. rewrite Hframe. simpl.
  destruct (constructed_indexes self Hc) as (tm & _ & Htrain & _).
  rewrite Htrain, get_audio_indexes_dtype; [done|]. by rewrite <-Htrain.
Qed.

Lemma generate_train_state_witness :
  (train_after Example.feeder 0 (S 4)).2 = (train_epoch Example.feeder 0 1).2 ∧
  (train_after Example.feeder 0 (S 4)).2 = 2.
Proof.
  destruct (generate_train_state Example.feeder 0 4 feeder_constructed
              feeder_featured feeder_labelled) as [Hstate _].
  - discriminate.
  - apply Nat.lt_0_succ.
  - split; [exact (f_equal snd Hstate)|].
    exact (eq_trans (f_equal snd Hstate) eq_refl).
Defined.

(** X11.  The training stream only serves rows of the train metadata.  On
    a constructed feeder every name of a yielded training batch is the name
    of the store row at the matching position of the slice, every position
    of the slice is a train index, and so every name of the batch is a
    train metadata name that occurs in the store. *)
Theorem generate_train_names {F : Type} `{FloatOps F}
    {R : Type} `{RandomState R} lb (hf : hdf5 F) train_meta validate_meta
    classes sc bs seed (self : DataGenerator F) (rs0 rs : R) n b :
  DataGenerator_init lb hf train_meta validate_meta classes sc bs seed
  = Ok (self, rs0) →
  train_outcome self rs n = Yield b →
  Forall2 (λ i name, audio_name (dg_data_dict self) !! i = Some name)
    (arr_data (train_slice self rs n)) (batch_audio_name b) ∧
  Forall (λ i, i ∈ arr_data (train_audio_indexes self))
    (arr_data (train_slice self rs n)) ∧
  Forall (λ name, name ∈ train_meta ∧ name ∈ audio_name (dg_data_dict self))
    (batch_audio_name b).
Proof.
  intros Hinit Hyield. apply train_outcome_Yield in Hyield.
  destruct (make_batch_Ok _ _ _ Hyield) as (_ & Hnames & _).
  apply gather_Forall2 in Hnames.
  assert (Forall (λ i, i ∈ arr_data (train_audio_indexes self))
            (arr_data (train_slice self rs n))) as Hslice.
  { apply train_slice_Forall. by apply Forall_forall. }
  split_and!; [done | done |].
  unfold DataGenerator_init in Hinit.
  destruct (load_hdf5 lb hf) as [dd|]; simpl in Hinit; [|done].
  injection Hinit as <- _. simpl in *.
  pose proof (audio_indexes_loop_spec (audio_name dd) train_meta) as Hspec.
  apply Forall_forall. intros name [k Hk]%list_elem_of_lookup.
  destruct (Forall2_lookup_r _ _ _ _ _ Hnames Hk) as (i & Hi & Hrow).
  apply list_elem_of_lookup_2 in Hi.
  apply (proj1 (Forall_forall _ _) Hslice) in Hi.
  apply list_elem_of_lookup in Hi as [k' Hk'].
  destruct (Forall2_lookup_r _ _ _ _ _ Hspec Hk')
    as (name' & Hname' & [Hrow' _]).
  assert (name = name') as -> by congruence.
  apply list_elem_of_lookup_2 in Hname'.
  by apply list_elem_of_filter in Hname' as [? ?].
Qed.

Lemma generate_train_names_witness :
  ∃ b, train_outcome Example.feeder 0 0 = Yield b ∧
       Forall (λ name, name ∈ Example.train_meta ∧
                       name ∈ audio_name (dg_data_dict Example.feeder))
         (batch_audio_name b).
Proof.
  exists Example.first_batch.
  assert (train_outcome Example.feeder 0 0 = Yield Example.first_batch)
    as Hyield by (vm_compute; reflexivity).
  split; [exact Hyield|].
  exact (proj2 (proj2
    (generate_train_names _ _ _ _ _ _ _ _ _ _ 0 0 _ feeder_init Hyield))).
Defined.

(** X12.  Each epoch serves each training row once.  On a constructed
    feeder whose train metadata lists no name twice, with a non-empty train
    index set and a positive batch size, no row index occurs twice among
    the slices of one epoch. *)
Theorem generate_train_epoch_NoDup {F : Type} `{FloatOps F}
    {R : Type} `{RandomState R} lb (hf : hdf5 F) train_meta validate_meta
    classes sc bs seed (self : DataGenerator F) (rs0 rs : R) k :
  DataGenerator_init lb hf train_meta validate_meta classes sc bs seed
  = Ok (self, rs0) →
  NoDup train_meta →
  arr_data (train_audio_indexes self) ≠ [] →
  0 < batch_size self →
  let m := batches_for self (np_len (train_audio_indexes self)) in
  NoDup (concat ((λ j, arr_data (train_slice self rs (k * m + j)))
                 <$> seq 0 m)).
Proof.
  intros Hinit Hnd Hne Hbs m. subst m.
  rewrite train_epoch_slices by done.
  rewrite train_epoch_Permutation.
  unfold DataGenerator_init in Hinit.
  destruct (load_hdf5 lb hf) as [dd|]; simpl in Hinit; [|done].
  injection Hinit as <- _. simpl.
  by apply audio_indexes_loop_NoDup.
Qed.

Lemma generate_train_epoch_NoDup_witness :
  NoDup Example.train_meta ∧
  NoDup (concat ((λ j, arr_data (train_slice Example.feeder 0 (2 * 3 + j)))
                 <$> seq 0 3)).
Proof.
  assert (NoDup Example.train_meta) as Hnd.
  { apply (bool_decide_unpack _). vm_compute. exact I. }
  split; [exact Hnd|].
  refine (generate_train_epoch_NoDup _ _ _ _ _ _ _ _ _ _ 0 2 feeder_init
            Hnd _ (Nat.lt_0_succ 1)).
  discriminate.
Defined.

(** ** Generators that have stopped *)

Section closed.
Context {F : Type} `{FloatOps F}.
Implicit Types (self : DataGenerator F) (g : validate_gen).

Lemma validate_next_closes self g :
  (∀ b, (validate_next self g).1 ≠ Yield b) →
  (validate_next self g).2 = ValidateClosed.
Proof.
  assert (∀ mx fr, (∀ b, (validate_resume self mx fr).1 ≠ Yield b) →
                   (validate_resume self mx fr).2 = ValidateClosed)
    as Hresume.
  { intros mx fr. unfold validate_resume.
    destruct (decide (Some _ = mx)); [done|].
    destruct (decide (np_len _ ≤ _)); [done|].
    destruct (make_batch self _) as [b|e]; simpl; [|done].
    intros Hno. by destruct (Hno b). }
  destruct g as [data_type sources mx|mx fr|]; simpl; [|apply Hresume|done].
  destruct (validate_start self data_type sources); [apply Hresume | done].
Qed.

Lemma validate_after_closed self g n k :
  validate_after self g n = ValidateClosed → n ≤ k →
  validate_after self g k = ValidateClosed.
Proof.
  intros Hclosed. induction 1 as [|k _ IH]; [done|].
  simpl. by rewrite IH.
Qed.

End closed.

(** X13.  Neither stream can be resumed.  Once a request to a training or a
    validation generator has not yielded a batch, because it raised or
    because the stream was over, every later request to that generator
    gives [StopIteration]. *)
Theorem generators_stay_closed {F : Type} `{FloatOps F}
    {R : Type} `{RandomState R} (self : DataGenerator F) :
  (∀ (rs : R) n,
     (∀ b, train_outcome self rs n ≠ Yield b) →
     ∀ k, n < k → train_outcome self rs k = StopIteration) ∧
  (∀ g n,
     (∀ b, validate_outcome self g n ≠ Yield b) →
     ∀ k, n < k → validate_outcome self g k = StopIteration).
Proof.
  split.
  - intros rs n Hno k Hk. rewrite train_outcome_eq in Hno.
    rewrite train_outcome_eq.
    rewrite (train_after_closed self rs (S n) k); [done | | lia].
    rewrite train_after_S. by apply train_next_closes.
  - intros g n Hno k Hk. unfold validate_outcome in *.
    rewrite (validate_after_closed self g (S n) k); [done | | lia].
    simpl. by apply validate_next_closes.
Qed.

Lemma generators_stay_closed_witness :
  train_outcome Example.unlabelled 0 5 = StopIteration ∧
  validate_outcome Example.feeder (ValidateCreated "validate" ["d1"] None) 9
  = StopIteration.
Proof.
  destruct (generators_stay_closed (R:=nat) Example.unlabelled)
    as [Htrain _].
  destruct (generators_stay_closed (R:=nat) Example.feeder)
    as [_ Hvalidate].
  split.
  - apply (Htrain 0 0); [|apply Nat.lt_0_succ].
    intros b Hb. vm_compute in Hb. discriminate Hb.
  - apply (Hvalidate _ 2); [|repeat constructor].
    intros b Hb. vm_compute in Hb. discriminate Hb.
Defined.

(** ** More on the validation generator *)

Section more_validation.
Context {F : Type} `{FloatOps F}.
Implicit Types (self : DataGenerator F) (b : batch F) (a : ndarray).

(** The loop starts at iteration 0 and position 0 of its index set. *)
Lemma validate_start_frame self data_type sources fr :
  validate_start self data_type sources = Ok fr →
  fr = validate_frame_at self (vf_audio_indexes fr) 0.
Proof.
  unfold validate_start.
  destruct (if decide (data_type = "train") then _ else _) as [a|];
    simpl; [|done].
  by intros [= <-].
Qed.

(** After [n] requests a started generator is closed, or every request so
    far went past both [break]s and built its batch. *)
Lemma validate_after_cases self g mx a data_type sources n :
  g = ValidateCreated data_type sources mx →
  validate_start self data_type sources = Ok (validate_frame_at self a 0) →
  validate_after self g n = ValidateClosed ∨
  (validate_after self g n = validate_gen_at self g mx a n ∧
   ∀ i, i < n →
     Some i ≠ mx ∧ ¬ np_len a ≤ i * batch_size self ∧
     ∃ b, make_batch self (validate_slice self a i) = Ok b).
Proof.
  intros Hg Hstart. induction n as [|n [IH|[IH Hpast]]].
  - right. split; [done | lia].
  - left. simpl. by rewrite IH.
  - simpl. rewrite IH.
    rewrite (validate_next_at _ _ _ _ _ _ _ Hg Hstart), validate_resume_at.
    destruct (decide (Some n = mx)); [by left|].
    destruct (decide (np_len a ≤ n * batch_size self)); [by left|].
    destruct (make_batch self (validate_slice self a n)) as [b|e] eqn:Hb;
      [|by left].
    right. split; [done|]. intros i Hi.
    destruct (decide (i = n)) as [->|]; [|apply Hpast; lia].
    split_and!; [done | done | by exists b].
Qed.

(** A yielded batch is the batch of the slice of its turn. *)
Lemma validate_outcome_Yield self g mx a data_type sources n b :
  g = ValidateCreated data_type sources mx →
  validate_start self data_type sources = Ok (validate_frame_at self a 0) →
  validate_outcome self g n = Yield b →
  make_batch self (validate_slice self a n) = Ok b ∧
  Some n ≠ mx ∧ ¬ np_len a ≤ n * batch_size self ∧
  ∀ i, i < n → Some i ≠ mx.
Proof.
  intros Hg Hstart. unfold validate_outcome.
  destruct (validate_after_cases self g mx a data_type sources n Hg Hstart)
    as [->|[-> Hpast]]; [done|].
  rewrite (validate_next_at _ _ _ _ _ _ _ Hg Hstart), validate_resume_at.
  destruct (decide (Some n = mx)); [done|].
  destruct (decide (np_len a ≤ n * batch_size self)); [done|].
  destruct (make_batch self (validate_slice self a n)) as [b'|]; [|done].
  simpl. intros [= ->]. split_and!; [done..|].
  intros i Hi. by destruct (Hpast i Hi).
Qed.

(** A request to a generator whose start failed never yields. *)
Lemma validate_outcome_start_Err self data_type sources mx e n b :
  validate_start self data_type sources = Err e →
  validate_outcome self (ValidateCreated data_type sources mx) n ≠ Yield b.
Proof.
  intros Hstart. unfold validate_outcome.
  assert (validate_next self (ValidateCreated data_type sources mx)
          = (Raise e, ValidateClosed)) as Hfirst by (simpl; by rewrite Hstart).
  destruct n as [|n].
  - change (validate_after self ?g 0) with g. by rewrite Hfirst.
  - rewrite (validate_after_closed self _ 1 (S n)); [done | | lia].
    change (validate_after self ?g 1) with (validate_next self g).2.
    by rewrite Hfirst.
Qed.

End more_validation.

(** X14.  Batch sizes of the validation stream.  In a valid mode on a
    constructed feeder whose batches can be built, with a positive batch
    size, a batch yielded by request [n] is the batch of the slice of turn
    [n]; [n] is below the number of batches of the stream; and the batch has
    [batch_size] rows unless it is the last slice of an index set whose
    length is not a multiple of [batch_size], when it has the remainder. *)
Theorem generate_validate_batch_rows {F : Type} `{FloatOps F}
    {R : Type} `{RandomState R} (self : DataGenerator F)
    data_type sources max_iteration n b :
  constructed (R:=R) self → 0 < batch_size self →
  data_type = "train" ∨ (data_type = "validate" ∧ source_labelled self) →
  validate_outcome self (ValidateCreated data_type sources max_iteration) n
  = Yield b →
  let a := validate_index_set self data_type sources in
  let m := batches_for self (np_len a) in
  make_batch self (validate_slice self a n) = Ok b ∧
  n < validate_count self max_iteration (np_len a) ∧
  batch_rows b
  = (if decide (n + 1 = m ∧ np_len a mod batch_size self ≠ 0)
     then np_len a mod batch_size self else batch_size self).
Proof.
  intros Hc Hbs Hmode Hyield a m.
  destruct (validate_ready self data_type sources Hc Hmode) as (Hstart & _).
  fold a in Hstart.
  destruct (validate_outcome_Yield self _ max_iteration a data_type sources
              n b eq_refl Hstart Hyield) as (Hb & Hn & Hlen & Hpast).
  destruct (make_batch_rows _ _ _ Hb) as (Hrows & _).
  assert (0 < np_len a) as Hpos by lia.
  destruct (div_up_bounds (np_len a) (batch_size self) Hbs) as [Hcover Hm].
  destruct (Hm Hpos) as [Hmpos Hlast].
  fold (batches_for self (np_len a)) in Hcover, Hmpos, Hlast.
  fold m in Hcover, Hmpos, Hlast.
  assert (n < m) as Hnm by nia.
  split_and!; [done | |].
  - unfold validate_count. fold m. destruct max_iteration as [mx|]; [|done].
    assert (n ≠ mx) by congruence.
    destruct (decide (mx < n)) as [Hlt|]; [|lia].
    by destruct (Hpast mx Hlt).
  - rewrite Hrows. unfold validate_slice. rewrite np_slice_data.
    rewrite length_take, length_drop. fold (np_len a).
    pose proof (div_up_last (np_len a) (batch_size self) Hbs Hpos) as Hrem.
    fold (batches_for self (np_len a)) in Hrem. fold m in Hrem.
    pose proof (Nat.mod_upper_bound (np_len a) (batch_size self)) as Hr.
    destruct (decide (n + 1 = m)) as [Heq|Hne].
    + replace n with (m - 1) at 1 by lia.
      destruct (decide (np_len a mod batch_size self = 0)) as [Hz|Hz].
      * rewrite decide_False by tauto. lia.
      * rewrite decide_True by done. lia.
    + rewrite decide_False by tauto. nia.
Qed.

Lemma generate_validate_batch_rows_witness :
  ∃ b, validate_outcome Example.feeder
         (ValidateCreated "validate" ["d1"] None) 1 = Yield b ∧
       batch_rows b = 1.
Proof.
  eexists. split; [vm_compute; reflexivity|].
  exact (proj2 (proj2
    (generate_validate_batch_rows (R:=nat) Example.feeder "validate" ["d1"]
       None 1 _ feeder_constructed (Nat.lt_0_succ 1)
       (or_intror (conj eq_refl feeder_source_labelled)) eq_refl))).
Defined.

(** X15.  In mode "train" the source set plays no part: two validation
    generators in that mode that differ only in their source sets give the
    same outcome at every request. *)
Theorem generate_validate_train_sources {F : Type} `{FloatOps F}
    (self : DataGenerator F) sources sources' max_iteration n :
  validate_outcome self (ValidateCreated "train" sources max_iteration) n
  = validate_outcome self (ValidateCreated "train" sources' max_iteration) n.
Proof.
  assert (validate_next self (ValidateCreated "train" sources max_iteration)
          = validate_next self
              (ValidateCreated "train" sources' max_iteration)) as Hfirst
    by done.
  assert (∀ k, validate_after self
                 (ValidateCreated "train" sources max_iteration) (S k)
               = validate_after self
                   (ValidateCreated "train" sources' max_iteration) (S k))
    as Hafter.
  { induction k as [|k IH].
    - change (validate_after self ?g 1) with (validate_next self g).2.
      by rewrite Hfirst.
    - change (validate_after self ?g (S (S k)))
        with (validate_next self (validate_after self g (S k))).2.
      by rewrite IH. }
  unfold validate_outcome. destruct n as [|n].
  - change (validate_after self ?g 0) with g. by rewrite Hfirst.
  - by rewrite Hafter.
Qed.

(** X16.  In mode "train" the validation stream serves the train index set
    in the order in which it was resolved, unshuffled, and needs no source
    labels.  On a constructed feeder with features and labels in shape and
    a positive batch size it yields the batches of the successive slices of
    that set, as many as [validate_count] says, then stops; the slices put
    end to end are the first [count * batch_size] train indexes. *)
Theorem generate_validate_train_order {F : Type} `{FloatOps F}
    {R : Type} `{RandomState R} (self : DataGenerator F)
    sources max_iteration :
  constructed (R:=R) self → featured self → labelled self →
  0 < batch_size self →
  let g := ValidateCreated "train" sources max_iteration in
  let a := train_audio_indexes self in
  let c := validate_count self max_iteration (np_len a) in
  (∀ n, n < c → ∃ b, validate_outcome self g n = Yield b ∧
                     make_batch self (validate_slice self a n) = Ok b) ∧
  validate_outcome self g c = StopIteration ∧
  concat ((λ n, arr_data (validate_slice self a n)) <$> seq 0 c)
  = take (c * batch_size self) (arr_data a).
Proof.
  intros Hc Hfeat Hlab Hbs g a c.
  assert ("train" = "train" ∨ "train" = "validate" ∧ source_labelled self)
    as Hmode by by left.
  destruct (validate_ready self "train" sources Hc Hmode) as (Hstart & _).
  change (validate_index_set self "train" sources) with a in Hstart.
  destruct (validate_run self g max_iteration a "train" sources eq_refl
              Hstart Hbs) as (_ & Hyield & Hstop).
  { intros n Hn.
    apply (validate_batches self "train" sources n Hc Hfeat Hlab Hmode).
    by destruct (validate_count_below self max_iteration (np_len a) n Hbs). }
  split_and!; [done | done |].
  rewrite <-concat_slices. f_equal. apply list_fmap_ext. intros i n _.
  unfold validate_slice. apply np_slice_data.
Qed.

Lemma generate_validate_train_order_witness :
  concat ((λ n, arr_data (validate_slice Example.feeder
                            (train_audio_indexes Example.feeder) n))
          <$> seq 0 2)
  = [0; 2; 1; 4] ∧
  validate_outcome Example.feeder (ValidateCreated "train" [] (Some 2)) 2
  = StopIteration.
Proof.
  destruct (generate_validate_train_order (R:=nat) Example.feeder []
              (Some 2) feeder_constructed feeder_featured feeder_labelled
              (Nat.lt_0_succ 1)) as (_ & Hstop & Hconcat).
  split; [exact Hconcat | exact Hstop].
Defined.

(** X17.  Mode "validate" needs the source labels as soon as there is a
    validation index.  On a feeder whose store has no ['source_label']
    dataset, the first request in that mode raises
    [KeyError('source_label')] when the validation index set is not empty,
    and no request ever yields; when the validation index set is empty the
    first request ends the stream instead, without an error. *)
Theorem generate_validate_unsourced {F : Type} `{FloatOps F}
    (self : DataGenerator F) sources max_iteration :
  source_label (dg_data_dict self) = None →
  let g := ValidateCreated "validate" sources max_iteration in
  (arr_data (validate_audio_indexes self) ≠ [] →
   validate_outcome self g 0 = Raise (KeyError "source_label") ∧
   ∀ n b, validate_outcome self g n ≠ Yield b) ∧
  (arr_data (validate_audio_indexes self) = [] →
   validate_outcome self g 0 = StopIteration).
Proof.
  intros Hnone g. split.
  - intros Hne.
    assert (validate_start self "validate" sources
            = Err (KeyError "source_label")) as Hstart.
    { unfold validate_start, get_source_indexes. simpl.
      destruct (arr_data (validate_audio_indexes self)); [done|].
      simpl. by rewrite Hnone. }
    split.
    + unfold validate_outcome, g. simpl. by rewrite Hstart.
    + intros n b. by eapply validate_outcome_start_Err.
  - intros Hempty. unfold validate_outcome, g. simpl.
    unfold validate_start, get_source_indexes. simpl. rewrite Hempty. simpl.
    unfold validate_resume. simpl.
    by destruct (decide (Some 0 = max_iteration)).
Qed.

Lemma generate_validate_unsourced_witness :
  source_label (dg_data_dict Cases.unsourced) = None ∧
  validate_outcome Cases.unsourced (ValidateCreated "validate" ["d1"] None) 0
  = Raise (KeyError "source_label").
Proof.
  split; [reflexivity|].
  destruct (generate_validate_unsourced Cases.unsourced ["d1"] None eq_refl)
    as [Hraise _].
  refine (proj1 (Hraise _)). discriminate.
Defined.

(** X18.  [max_iteration] caps the stream whatever the feeder, the mode and
    the index set: a request that yields a batch has a number below
    [max_iteration]. *)
Theorem generate_validate_capped {F : Type} `{FloatOps F}
    (self : DataGenerator F) data_type sources mx n b :
  validate_outcome self (ValidateCreated data_type sources (Some mx)) n
  = Yield b →
  n < mx.
Proof.
  intros Hyield.
  destruct (validate_start self data_type sources) as [fr|e] eqn:Hstart.
  - rewrite (validate_start_frame _ _ _ _ Hstart) in Hstart.
    destruct (validate_outcome_Yield self _ (Some mx) _ data_type sources
                n b eq_refl Hstart Hyield) as (_ & Hn & _ & Hpast).
    destruct (decide (n < mx)) as [|Hge]; [done|].
    destruct (decide (n = mx)) as [->|Hne]; [done|].
    by destruct (Hpast mx); [lia|].
  - by destruct (validate_outcome_start_Err self data_type sources
                   (Some mx) e n b Hstart).
Qed.

Lemma generate_validate_capped_witness :
  ∃ b, validate_outcome Example.single
         (ValidateCreated "train" [] (Some 3)) 2 = Yield b ∧
       2 < 3.
Proof.
  eexists. split; [vm_compute; reflexivity|].
  exact (generate_validate_capped Example.single "train" [] 3 2 _ eq_refl).
Defined.

(** X19.  The validation stream is finite.  With a positive batch size,
    whatever the feeder, the mode, the source set and [max_iteration], there
    is a request from which on every request gives [StopIteration]: the
    first one after a failed start, and at the latest the one numbered by
    the length of the index set plus one. *)
Theorem generate_validate_terminates {F : Type} `{FloatOps F}
    (self : DataGenerator F) data_type sources max_iteration :
  0 < batch_size self →
  let g := ValidateCreated data_type sources max_iteration in
  let bound := match validate_start self data_type sources with
               | Ok fr => np_len (vf_audio_indexes fr) + 1
               | Err _ => 1
               end in
  ∀ n, bound ≤ n → validate_outcome self g n = StopIteration.
Proof.
  intros Hbs g bound n Hn. unfold validate_outcome.
  assert (validate_after self g n = ValidateClosed) as ->; [|done].
  subst bound.
  destruct (validate_start self data_type sources) as [fr|e] eqn:Hstart.
  - rewrite (validate_start_frame _ _ _ _ Hstart) in Hstart.
    destruct (validate_after_cases self g max_iteration _ data_type sources
                n eq_refl Hstart) as [Hclosed|[_ Hpast]]; [done|].
    exfalso. destruct (Hpast (n - 1)) as (_ & Hlen & _); [lia|].
    apply Hlen. nia.
  - apply (validate_after_closed self g 1 n); [|lia].
    change (validate_after self g 1) with (validate_next self g).2.
    unfold g. simpl. by rewrite Hstart.
Qed.

Lemma generate_validate_terminates_witness :
  0 < batch_size Example.unlabelled ∧
  ∀ n, 1 ≤ n →
       validate_outcome Example.unlabelled
         (ValidateCreated "test" ["d1"] None) n = StopIteration.
Proof.
  split; [apply Nat.lt_0_succ|].
  exact (generate_validate_terminates Example.unlabelled "test" ["d1"] None
           (Nat.lt_0_succ 1)).
Defined.

(** X20.  Mode "validate" only serves validation rows of the chosen
    sources.  On a constructed feeder every name of a batch yielded in that
    mode is the name of the store row at the matching position of its
    slice; that row is a validation index whose source label is in
    [sources], and the name is a validate metadata name. *)
Theorem generate_validate_names {F : Type} `{FloatOps F}
    {R : Type} `{RandomState R} lb (hf : hdf5 F) train_meta validate_meta
    classes sc bs seed (self : DataGenerator F) (rs0 : R)
    sources max_iteration n b :
  DataGenerator_init lb hf train_meta validate_meta classes sc bs seed
  = Ok (self, rs0) →
  validate_outcome self (ValidateCreated "validate" sources max_iteration) n
  = Yield b →
  let a := validate_index_set self "validate" sources in
  ∀ k name, batch_audio_name b !! k = Some name →
    ∃ i, arr_data (validate_slice self a n) !! k = Some i ∧
         audio_name (dg_data_dict self) !! i = Some name ∧
         i ∈ arr_data (validate_audio_indexes self) ∧
         from_sources self sources i ∧
         name ∈ validate_meta.
Proof.
  intros Hinit Hyield a.
  destruct (validate_start self "validate" sources) as [fr|e] eqn:Hstart;
    [|by destruct (validate_outcome_start_Err self "validate" sources
                     max_iteration e n b Hstart)].
  assert (vf_audio_indexes fr = a) as Ha.
  { unfold validate_start, get_source_indexes in Hstart. simpl in Hstart.
    destruct (source_indexes_loop _ sources _) as [kept|] eqn:Hloop;
      simpl in Hstart; [|done].
    injection Hstart as <-. simpl.
    by destruct (source_indexes_loop_Ok _ _ _ _ Hloop) as [-> _]. }
  rewrite (validate_start_frame _ _ _ _ Hstart), Ha in Hstart.
  destruct (validate_outcome_Yield self _ max_iteration a "validate" sources
              n b eq_refl Hstart Hyield) as (Hb & _).
  destruct (make_batch_Ok _ _ _ Hb) as (_ & Hnames & _).
  apply gather_Forall2 in Hnames.
  intros k name Hk.
  destruct (Forall2_lookup_r _ _ _ _ _ Hnames Hk) as (i & Hi & Hrow).
  exists i. split; [done|]. split; [done|].
  assert (i ∈ arr_data a) as Hin.
  { apply list_elem_of_lookup_2 in Hi. unfold validate_slice in Hi.
    simpl in Hi. by apply subseteq_take, subseteq_drop in Hi. }
  unfold a, validate_index_set in Hin. simpl in Hin.
  apply list_elem_of_filter in Hin as [Hsrc Hval].
  split_and!; [done | done |].
  unfold DataGenerator_init in Hinit.
  destruct (load_hdf5 lb hf) as [dd|]; simpl in Hinit; [|done].
  injection Hinit as <- _. simpl in *.
  pose proof (audio_indexes_loop_spec (audio_name dd) validate_meta) as Hspec.
  apply list_elem_of_lookup in Hval as [k' Hk'].
  destruct (Forall2_lookup_r _ _ _ _ _ Hspec Hk')
    as (name' & Hname' & [Hrow' _]).
  assert (name = name') as -> by congruence.
  apply list_elem_of_lookup_2 in Hname'.
  by apply list_elem_of_filter in Hname' as [? ?].
Qed.

Lemma generate_validate_names_witness :
  ∃ b, validate_outcome Example.feeder
         (ValidateCreated "validate" ["d1"] None) 0 = Yield b ∧
       batch_audio_name b !! 1 = Some "a" ∧
       "a" ∈ Example.validate_meta ∧
       from_sources Example.feeder ["d1"] 0.
Proof.
  eexists. split; [vm_compute; reflexivity|]. split; [reflexivity|].
  destruct (generate_validate_names _ _ _ _ _ _ _ _ _ _ ["d1"] None 0 _
              feeder_init eq_refl 1 "a" eq_refl)
    as (i & Hi & _ & _ & Hsrc & Hmeta).
  split; [exact Hmeta|].
  injection Hi as <-. exact Hsrc.
Defined.
